(** * go-jsonschema (2019-09): the schema value, its JSON decoding and FromURI

    A shallow embedding of package [jsonschema] (src/example/main.go): the
    [Schema] and [schema] structs, [AsBool], [UnmarshalJSON] and [FromURI],
    together with the parts of Go's [encoding/json] and [net/url] that decide
    what these functions return.

    Pointers are options ([None] is nil), slices and maps are optional lists
    ([None] is the nil slice or map), strings are byte strings. A float64
    stands for the numeral it was read from, and of a decoding error only
    the kind is kept. *)

From Stdlib Require Import String Ascii List Bool ZArith Lia.
From Stdlib Require Import DecimalString DecimalN Permutation.
Import ListNotations.
Local Open Scope string_scope.
Local Open Scope list_scope.

Set Implicit Arguments.
Set Warnings "-register-all".

(** ** Errors and the result monad *)

(** What [json.Unmarshal] can report here: invalid JSON text, or a JSON value
    that does not fit the Go type it is decoded into (a number that
    overflows the type included). Only the kind of the error is kept. *)
Inductive json_error : Type :=
| SyntaxError
| UnmarshalTypeError.

Inductive result (E A : Type) : Type :=
| Ok (a : A)
| Err (e : E).
Arguments Ok {E A} a.
Arguments Err {E A} e.

Definition bind {E A B} (r : result E A) (k : A -> result E B) : result E B :=
  match r with
  | Ok a => k a
  | Err e => Err e
  end.

Notation "x <- r ;; k" := (bind r (fun x => k))
  (at level 61, r at next level, right associativity).

Fixpoint mapM {E A B} (f : A -> result E B) (l : list A) : result E (list B) :=
  match l with
  | [] => Ok []
  | a :: l' => b <- f a ;; bs <- mapM f l' ;; Ok (b :: bs)
  end.

Fixpoint foldM {E A S} (f : A -> S -> result E S) (l : list A) (s : S)
  : result E S :=
  match l with
  | [] => Ok s
  | a :: l' => s' <- f a s ;; foldM f l' s'
  end.

Definition is_ok {E A} (r : result E A) : bool :=
  match r with Ok _ => true | Err _ => false end.

(** ** JSON values

    A number keeps its literal: [encoding/json] converts the literal only
    once the Go type of the destination is known. An object keeps its
    members in document order, duplicates included. *)
Inductive json : Type :=
| JNull
| JBool (b : bool)
| JNum (lit : string)
| JStr (s : string)
| JArr (elems : list json)
| JObj (members : list (string * json)).

(** Go maps as association lists with unique keys: [map_set] is [m[k] = v]. *)
Fixpoint map_set {V} (k : string) (v : V) (m : list (string * V))
  : list (string * V) :=
  match m with
  | [] => [(k, v)]
  | (k', v') :: m' =>
      if String.eqb k k' then (k, v) :: m' else (k', v') :: map_set k v m'
  end.

Fixpoint map_get {V} (k : string) (m : list (string * V)) : option V :=
  match m with
  | [] => None
  | (k', v') :: m' => if String.eqb k k' then Some v' else map_get k m'
  end.

(** ** Numbers: strconv.ParseUint and strconv.ParseFloat on a JSON literal *)

Definition is_digit (c : ascii) : bool :=
  let n := nat_of_ascii c in (48 <=? n)%nat && (n <=? 57)%nat.

(** The value of a string of decimal digits; the empty string counts as 0. *)
Definition digits_val (s : string) : option Z :=
  option_map (fun d => Z.of_N (N.of_uint d)) (NilEmpty.uint_of_string s).

Definition uint64 := Z.
Definition maxUint64 : Z := (2 ^ 64 - 1)%Z.

(** [strconv.ParseUint(lit, 10, 64)]: decimal digits only, at most 2^64-1. *)
Definition ParseUint (lit : string) : option uint64 :=
  match NilZero.uint_of_string lit with
  | Some d =>
      let n := Z.of_N (N.of_uint d) in
      if (n <=? maxUint64)%Z then Some n else None
  | None => None
  end.

(** A float64 is kept as the decimal literal it was converted from: the
    rounding to binary64 is not modelled, the range check is. *)
Inductive float64 : Type := F64 (lit : string).

(** The digits at the head of a string, and what follows them. *)
Fixpoint span_digits (s : string) : string * string :=
  match s with
  | String c s' =>
      if is_digit c then let (d, r) := span_digits s' in (String c d, r)
      else (EmptyString, s)
  | EmptyString => (EmptyString, EmptyString)
  end.

(** A JSON number: an optional minus, [0] or digits that do not start with
    [0], an optional fraction, an optional exponent. *)
Definition nonempty (s : string) : bool :=
  match s with EmptyString => false | _ => true end.

Definition valid_exponent (s : string) : bool :=
  match s with
  | EmptyString => true
  | String c r =>
      (Ascii.eqb c "e" || Ascii.eqb c "E")
      && (let d := match r with
                   | String "+" r' => r'
                   | String "-" r' => r'
                   | _ => r
                   end in
          let (ds, rest) := span_digits d in
          nonempty ds && negb (nonempty rest))
  end.

Definition valid_fraction (s : string) : bool :=
  match s with
  | String "." r =>
      let (ds, rest) := span_digits r in nonempty ds && valid_exponent rest
  | _ => valid_exponent s
  end.

Definition valid_number (lit : string) : bool :=
  let s := match lit with String "-" r => r | _ => lit end in
  match s with
  | String "0" r => valid_fraction r
  | String c r => is_digit c && (let (_, rest) := span_digits r in
                                 valid_fraction rest)
  | EmptyString => false
  end.

(** A JSON number read as [(neg, m, e)], of value [(-1)^neg * m * 10^e]. *)
Definition decimal_of_literal (lit : string) : option (bool * Z * Z) :=
  let (neg, s0) := match lit with
                   | String "-" r => (true, r)
                   | _ => (false, lit)
                   end in
  let (ip, s1) := span_digits s0 in
  let (fp, s2) := match s1 with
                  | String "." r => span_digits r
                  | _ => (EmptyString, s1)
                  end in
  let ex := match s2 with
            | EmptyString => Some 0%Z
            | String c r =>
                if orb (Ascii.eqb c "e") (Ascii.eqb c "E") then
                  match r with
                  | String "-" r' => option_map Z.opp (digits_val r')
                  | String "+" r' => digits_val r'
                  | _ => digits_val r
                  end
                else None
            end in
  match ip, digits_val (ip ++ fp), ex with
  | String _ _, Some m, Some e => Some (neg, m, (e - Z.of_nat (String.length fp))%Z)
  | _, _, _ => None
  end.

(** The least magnitude that rounds to infinity in binary64. *)
Definition float64_overflow : Z := (2 ^ 1024 - 2 ^ 970)%Z.

(** [strconv.ParseFloat(lit, 64)] on a JSON number fails exactly when the
    value is out of range. *)
Definition ParseFloat (lit : string) : option float64 :=
  match (if valid_number lit then decimal_of_literal lit else None) with
  | Some (_, m, e) =>
      let too_big :=
        if (0 <=? e)%Z then (float64_overflow <=? m * 10 ^ e)%Z
        else (float64_overflow * 10 ^ (- e) <=? m)%Z in
      if too_big then None else Some (F64 lit)
  | None => None
  end.

(** ** Go values stored in an [interface{}] by the decoder *)
Inductive any : Type :=
| ABool (b : bool)
| AFloat (f : float64)
| AString (s : string)
| ASlice (elems : list (option any))
| AMap (entries : list (string * option any)).

(** An [interface{}] is [option any]: [None] is the nil interface. *)
Fixpoint valueInterface (v : json) : result json_error (option any) :=
  match v with
  | JNull => Ok None
  | JBool b => Ok (Some (ABool b))
  | JNum lit =>
      match ParseFloat lit with
      | Some f => Ok (Some (AFloat f))
      | None => Err UnmarshalTypeError
      end
  | JStr s => Ok (Some (AString s))
  | JArr xs => es <- mapM valueInterface xs ;; Ok (Some (ASlice es))
  | JObj ms =>
      m <- foldM (fun kv m => a <- valueInterface (snd kv) ;;
                              Ok (map_set (fst kv) a m)) ms [] ;;
      Ok (Some (AMap m))
  end.

(** ** The schema struct

    [type Type string], its seven constants and the table [types]; nothing
    in the package reads the table. *)
Definition Type_string : Type := string.
Definition ARRAY : Type_string := "array".
Definition BOOLEAN : Type_string := "boolean".
Definition INTEGER : Type_string := "integer".
Definition NULL : Type_string := "null".
Definition NUMBER : Type_string := "number".
Definition OBJECT : Type_string := "object".
Definition STRING : Type_string := "string".

Definition types : list Type_string :=
  [ARRAY; BOOLEAN; INTEGER; NULL; NUMBER; OBJECT; STRING].

(** The fields of [schema], in the order of the declaration, grouped here by
    their Go type so that one decoder serves each group. *)

(** [*string] fields. *)
Inductive strField : Type :=
| kTitle | kDescription | kSchema | kID | kAnchor | kRef | kRecursiveRef
| kComment | kPattern | kFormat.

(** [*bool] fields. *)
Inductive boolField : Type :=
| kDeprecated | kReadOnly | kWriteOnly | kRecursiveAnchor | kUniqueItems.

(** [interface{}] fields. *)
Inductive anyField : Type :=
| kDefault | kType | kConst | kItems.

(** [map[string]*Schema] fields. *)
Inductive mapSchemaField : Type :=
| kDefs | kDefinitions | kDependentSchemas | kProperties | kPatternProperties.

(** [[]*Schema] fields. *)
Inductive sliceSchemaField : Type :=
| kAllOf | kAnyOf | kOneOf.

(** [*Schema] fields. *)
Inductive ptrSchemaField : Type :=
| kNot | kIf | kThen | kElse | kAdditionalItems | kUnevaluatedItems
| kContains | kAdditionalProperties | kUnevaluatedProperties | kPropertyNames.

(** [[]string] fields. *)
Inductive sliceStrField : Type :=
| kEnum | kRequired.

(** [*uint64] fields. *)
Inductive uintField : Type :=
| kMaxItems | kMinItems | kMaxContains | kMinContains | kMaxProperties
| kMinProperties | kMaxLength | kMinLength.

(** [*float64] fields. *)
Inductive floatField : Type :=
| kMultipleOf | kMaximum | kExclusiveMaximum | kMinimum | kExclusiveMinimum.

Scheme Equality for strField.
Scheme Equality for boolField.
Scheme Equality for anyField.
Scheme Equality for mapSchemaField.
Scheme Equality for sliceSchemaField.
Scheme Equality for ptrSchemaField.
Scheme Equality for sliceStrField.
Scheme Equality for uintField.
Scheme Equality for floatField.

(** An exported field of [schema]. [Examples], [Vocabulary] and
    [DependentRequired] are alone in their type. *)
Inductive field : Type :=
| FStr (k : strField)
| FBool (k : boolField)
| FAny (k : anyField)
| FExamples
| FVocabulary
| FMapSchema (k : mapSchemaField)
| FSliceSchema (k : sliceSchemaField)
| FPtrSchema (k : ptrSchemaField)
| FSliceStr (k : sliceStrField)
| FUint (k : uintField)
| FDependentRequired
| FFloat (k : floatField).

Section SchemaStruct.

(** The type of a nested schema value, [Schema] below. *)
Variable S : Type.

Record schema_of : Type := mk_schema {
  (* Meta-data *)
  Title : option string;
  Description : option string;
  Default : option any;
  Deprecated : option bool;
  ReadOnly : option bool;
  WriteOnly : option bool;
  Examples : option (list (option any));
  (* Meta-schema *)
  Schema_ : option string;
  Vocabulary : option (list (string * bool));
  (* Schema, schema URI, root schema, anchors, references *)
  ID : option string;
  Anchor : option string;
  RecursiveAnchor : option bool;
  Ref : option string;
  RecursiveRef : option string;
  Defs : option (list (string * option S));
  Definitions : option (list (string * option S));
  (* Comments *)
  Comment : option string;
  (* Subschema application *)
  AllOf : option (list (option S));
  AnyOf : option (list (option S));
  OneOf : option (list (option S));
  Not : option S;
  If : option S;
  Then : option S;
  Else : option S;
  DependentSchemas : option (list (string * option S));
  (* Validation *)
  Type_ : option any;
  Enum : option (list string);
  Const : option any;
  (* Arrays *)
  Items : option any;
  AdditionalItems : option S;
  UnevaluatedItems : option S;
  Contains : option S;
  MaxItems : option uint64;
  MinItems : option uint64;
  UniqueItems : option bool;
  MaxContains : option uint64;
  MinContains : option uint64;
  (* Objects *)
  Properties : option (list (string * option S));
  PatternProperties : option (list (string * option S));
  AdditionalProperties : option S;
  UnevaluatedProperties : option S;
  PropertyNames : option S;
  MaxProperties : option uint64;
  MinProperties : option uint64;
  Required : option (list string);
  DependentRequired : option (list (string * option (list string)));
  (* Numerics *)
  MultipleOf : option float64;
  Maximum : option float64;
  ExclusiveMaximum : option float64;
  Minimum : option float64;
  ExclusiveMinimum : option float64;
  (* Strings *)
  MaxLength : option uint64;
  MinLength : option uint64;
  Pattern : option string;
  Format : option string;
  baseURI : string
}.

Definition get_str (o : schema_of) (k : strField) : option string :=
  match k with
  | kTitle => Title o | kDescription => Description o
  | kSchema => Schema_ o | kID => ID o | kAnchor => Anchor o
  | kRef => Ref o | kRecursiveRef => RecursiveRef o
  | kComment => Comment o | kPattern => Pattern o | kFormat => Format o
  end.

Definition get_bool (o : schema_of) (k : boolField) : option bool :=
  match k with
  | kDeprecated => Deprecated o | kReadOnly => ReadOnly o
  | kWriteOnly => WriteOnly o | kRecursiveAnchor => RecursiveAnchor o
  | kUniqueItems => UniqueItems o
  end.

Definition get_any (o : schema_of) (k : anyField) : option any :=
  match k with
  | kDefault => Default o | kType => Type_ o | kConst => Const o
  | kItems => Items o
  end.

Definition get_mapSchema (o : schema_of) (k : mapSchemaField)
  : option (list (string * option S)) :=
  match k with
  | kDefs => Defs o | kDefinitions => Definitions o
  | kDependentSchemas => DependentSchemas o | kProperties => Properties o
  | kPatternProperties => PatternProperties o
  end.

Definition get_sliceSchema (o : schema_of) (k : sliceSchemaField)
  : option (list (option S)) :=
  match k with
  | kAllOf => AllOf o | kAnyOf => AnyOf o | kOneOf => OneOf o
  end.

Definition get_ptrSchema (o : schema_of) (k : ptrSchemaField) : option S :=
  match k with
  | kNot => Not o | kIf => If o | kThen => Then o | kElse => Else o
  | kAdditionalItems => AdditionalItems o
  | kUnevaluatedItems => UnevaluatedItems o | kContains => Contains o
  | kAdditionalProperties => AdditionalProperties o
  | kUnevaluatedProperties => UnevaluatedProperties o
  | kPropertyNames => PropertyNames o
  end.

Definition get_sliceStr (o : schema_of) (k : sliceStrField)
  : option (list string) :=
  match k with
  | kEnum => Enum o | kRequired => Required o
  end.

Definition get_uint (o : schema_of) (k : uintField) : option uint64 :=
  match k with
  | kMaxItems => MaxItems o | kMinItems => MinItems o
  | kMaxContains => MaxContains o | kMinContains => MinContains o
  | kMaxProperties => MaxProperties o | kMinProperties => MinProperties o
  | kMaxLength => MaxLength o | kMinLength => MinLength o
  end.

Definition get_float (o : schema_of) (k : floatField) : option float64 :=
  match k with
  | kMultipleOf => MultipleOf o | kMaximum => Maximum o
  | kExclusiveMaximum => ExclusiveMaximum o | kMinimum => Minimum o
  | kExclusiveMinimum => ExclusiveMinimum o
  end.

(** The struct rebuilt from one getter per group: an assignment to a
    field changes one getter at one key. *)
Definition rebuild
  (gs : strField -> option string) (gb : boolField -> option bool)
  (ga : anyField -> option any) (ex : option (list (option any)))
  (vo : option (list (string * bool)))
  (gm : mapSchemaField -> option (list (string * option S)))
  (gl : sliceSchemaField -> option (list (option S)))
  (gp : ptrSchemaField -> option S)
  (gt : sliceStrField -> option (list string))
  (gu : uintField -> option uint64)
  (dr : option (list (string * option (list string))))
  (gf : floatField -> option float64) (base : string) : schema_of :=
  {| Title := gs kTitle; Description := gs kDescription;
     Default := ga kDefault; Deprecated := gb kDeprecated;
     ReadOnly := gb kReadOnly; WriteOnly := gb kWriteOnly;
     Examples := ex;
     Schema_ := gs kSchema; Vocabulary := vo;
     ID := gs kID; Anchor := gs kAnchor;
     RecursiveAnchor := gb kRecursiveAnchor; Ref := gs kRef;
     RecursiveRef := gs kRecursiveRef; Defs := gm kDefs;
     Definitions := gm kDefinitions;
     Comment := gs kComment;
     AllOf := gl kAllOf; AnyOf := gl kAnyOf; OneOf := gl kOneOf;
     Not := gp kNot; If := gp kIf; Then := gp kThen; Else := gp kElse;
     DependentSchemas := gm kDependentSchemas;
     Type_ := ga kType; Enum := gt kEnum; Const := ga kConst;
     Items := ga kItems; AdditionalItems := gp kAdditionalItems;
     UnevaluatedItems := gp kUnevaluatedItems; Contains := gp kContains;
     MaxItems := gu kMaxItems; MinItems := gu kMinItems;
     UniqueItems := gb kUniqueItems; MaxContains := gu kMaxContains;
     MinContains := gu kMinContains;
     Properties := gm kProperties;
     PatternProperties := gm kPatternProperties;
     AdditionalProperties := gp kAdditionalProperties;
     UnevaluatedProperties := gp kUnevaluatedProperties;
     PropertyNames := gp kPropertyNames;
     MaxProperties := gu kMaxProperties;
     MinProperties := gu kMinProperties;
     Required := gt kRequired; DependentRequired := dr;
     MultipleOf := gf kMultipleOf; Maximum := gf kMaximum;
     ExclusiveMaximum := gf kExclusiveMaximum; Minimum := gf kMinimum;
     ExclusiveMinimum := gf kExclusiveMinimum;
     MaxLength := gu kMaxLength; MinLength := gu kMinLength;
     Pattern := gs kPattern; Format := gs kFormat;
     baseURI := base |}.

(** [schema{}]: every pointer, interface, slice and map nil, [baseURI]
    empty. *)
Definition schema_zero : schema_of :=
  rebuild (fun _ => None) (fun _ => None) (fun _ => None) None None
    (fun _ => None) (fun _ => None) (fun _ => None) (fun _ => None)
    (fun _ => None) None (fun _ => None) EmptyString.

Definition upd {K V} (eqb : K -> K -> bool) (g : K -> V) (k : K) (v : V)
  : K -> V :=
  fun k' => if eqb k k' then v else g k'.

Definition set_str (k : strField) (x : option string) (o : schema_of) :=
  rebuild (upd strField_beq (get_str o) k x) (get_bool o) (get_any o)
    (Examples o) (Vocabulary o) (get_mapSchema o) (get_sliceSchema o)
    (get_ptrSchema o) (get_sliceStr o) (get_uint o) (DependentRequired o)
    (get_float o) (baseURI o).

Definition set_bool (k : boolField) (x : option bool) (o : schema_of) :=
  rebuild (get_str o) (upd boolField_beq (get_bool o) k x) (get_any o)
    (Examples o) (Vocabulary o) (get_mapSchema o) (get_sliceSchema o)
    (get_ptrSchema o) (get_sliceStr o) (get_uint o) (DependentRequired o)
    (get_float o) (baseURI o).

Definition set_any (k : anyField) (x : option any) (o : schema_of) :=
  rebuild (get_str o) (get_bool o) (upd anyField_beq (get_any o) k x)
    (Examples o) (Vocabulary o) (get_mapSchema o) (get_sliceSchema o)
    (get_ptrSchema o) (get_sliceStr o) (get_uint o) (DependentRequired o)
    (get_float o) (baseURI o).

Definition set_Examples (x : option (list (option any))) (o : schema_of) :=
  rebuild (get_str o) (get_bool o) (get_any o)
    x (Vocabulary o) (get_mapSchema o) (get_sliceSchema o)
    (get_ptrSchema o) (get_sliceStr o) (get_uint o) (DependentRequired o)
    (get_float o) (baseURI o).

Definition set_Vocabulary (x : option (list (string * bool)))
  (o : schema_of) :=
  rebuild (get_str o) (get_bool o) (get_any o)
    (Examples o) x (get_mapSchema o) (get_sliceSchema o)
    (get_ptrSchema o) (get_sliceStr o) (get_uint o) (DependentRequired o)
    (get_float o) (baseURI o).

Definition set_mapSchema (k : mapSchemaField)
  (x : option (list (string * option S))) (o : schema_of) :=
  rebuild (get_str o) (get_bool o) (get_any o)
    (Examples o) (Vocabulary o)
    (upd mapSchemaField_beq (get_mapSchema o) k x) (get_sliceSchema o)
    (get_ptrSchema o) (get_sliceStr o) (get_uint o) (DependentRequired o)
    (get_float o) (baseURI o).

Definition set_sliceSchema (k : sliceSchemaField)
  (x : option (list (option S))) (o : schema_of) :=
  rebuild (get_str o) (get_bool o) (get_any o)
    (Examples o) (Vocabulary o) (get_mapSchema o)
    (upd sliceSchemaField_beq (get_sliceSchema o) k x)
    (get_ptrSchema o) (get_sliceStr o) (get_uint o) (DependentRequired o)
    (get_float o) (baseURI o).

Definition set_ptrSchema (k : ptrSchemaField) (x : option S)
  (o : schema_of) :=
  rebuild (get_str o) (get_bool o) (get_any o)
    (Examples o) (Vocabulary o) (get_mapSchema o) (get_sliceSchema o)
    (upd ptrSchemaField_beq (get_ptrSchema o) k x) (get_sliceStr o)
    (get_uint o) (DependentRequired o) (get_float o) (baseURI o).

Definition set_sliceStr (k : sliceStrField) (x : option (list string))
  (o : schema_of) :=
  rebuild (get_str o) (get_bool o) (get_any o)
    (Examples o) (Vocabulary o) (get_mapSchema o) (get_sliceSchema o)
    (get_ptrSchema o) (upd sliceStrField_beq (get_sliceStr o) k x)
    (get_uint o) (DependentRequired o) (get_float o) (baseURI o).

Definition set_uint (k : uintField) (x : option uint64) (o : schema_of) :=
  rebuild (get_str o) (get_bool o) (get_any o)
    (Examples o) (Vocabulary o) (get_mapSchema o) (get_sliceSchema o)
    (get_ptrSchema o) (get_sliceStr o) (upd uintField_beq (get_uint o) k x)
    (DependentRequired o) (get_float o) (baseURI o).

Definition set_DependentRequired
  (x : option (list (string * option (list string)))) (o : schema_of) :=
  rebuild (get_str o) (get_bool o) (get_any o)
    (Examples o) (Vocabulary o) (get_mapSchema o) (get_sliceSchema o)
    (get_ptrSchema o) (get_sliceStr o) (get_uint o) x
    (get_float o) (baseURI o).

Definition set_float (k : floatField) (x : option float64) (o : schema_of) :=
  rebuild (get_str o) (get_bool o) (get_any o)
    (Examples o) (Vocabulary o) (get_mapSchema o) (get_sliceSchema o)
    (get_ptrSchema o) (get_sliceStr o) (get_uint o) (DependentRequired o)
    (upd floatField_beq (get_float o) k x) (baseURI o).

End SchemaStruct.

(** [Schema]: a boolean schema value, a schema object, or (never after a
    plain decode of one JSON value) both or neither. *)
Inductive Schema : Type :=
  mkSchema (bool_ : option bool) (schema_ : option (schema_of Schema)).

Definition schema : Type := schema_of Schema.

Definition Schema_bool (s : Schema) : option bool :=
  match s with mkSchema b _ => b end.

Definition Schema_schema (s : Schema) : option schema :=
  match s with mkSchema _ o => o end.

(** [&Schema{}]. *)
Definition Schema_zero : Schema := mkSchema None None.

(** [func (s *Schema) AsBool() (value bool, ok bool)]. *)
Definition AsBool (s : Schema) : bool * bool :=
  match Schema_bool s with
  | None => (false, false)
  | Some b => (b, true)
  end.

(** ** Struct tags: JSON names and omitempty *)

(** All fields in declaration order, as [encoding/json] lists them. *)
Definition fields : list field :=
  [ FStr kTitle; FStr kDescription; FAny kDefault; FBool kDeprecated;
    FBool kReadOnly; FBool kWriteOnly; FExamples;
    FStr kSchema; FVocabulary;
    FStr kID; FStr kAnchor; FBool kRecursiveAnchor; FStr kRef;
    FStr kRecursiveRef; FMapSchema kDefs; FMapSchema kDefinitions;
    FStr kComment;
    FSliceSchema kAllOf; FSliceSchema kAnyOf; FSliceSchema kOneOf;
    FPtrSchema kNot; FPtrSchema kIf; FPtrSchema kThen; FPtrSchema kElse;
    FMapSchema kDependentSchemas;
    FAny kType; FSliceStr kEnum; FAny kConst;
    FAny kItems; FPtrSchema kAdditionalItems; FPtrSchema kUnevaluatedItems;
    FPtrSchema kContains;
    FUint kMaxItems; FUint kMinItems; FBool kUniqueItems;
    FUint kMaxContains; FUint kMinContains;
    FMapSchema kProperties; FMapSchema kPatternProperties;
    FPtrSchema kAdditionalProperties; FPtrSchema kUnevaluatedProperties;
    FPtrSchema kPropertyNames;
    FUint kMaxProperties; FUint kMinProperties; FSliceStr kRequired;
    FDependentRequired;
    FFloat kMultipleOf; FFloat kMaximum; FFloat kExclusiveMaximum;
    FFloat kMinimum; FFloat kExclusiveMinimum;
    FUint kMaxLength; FUint kMinLength; FStr kPattern; FStr kFormat ].

(** The key of a field in JSON: the name in its [json:] tag, or the Go field
    name for the five fields declared without a tag. *)
Definition name (f : field) : string :=
  match f with
  | FStr kTitle => "title"
  | FStr kDescription => "description"
  | FAny kDefault => "default"
  | FBool kDeprecated => "deprecated"
  | FBool kReadOnly => "readOnly"
  | FBool kWriteOnly => "writeOnly"
  | FExamples => "examples"
  | FStr kSchema => "$schema"
  | FVocabulary => "$vocabulary"
  | FStr kID => "$id"
  | FStr kAnchor => "$anchor"
  | FBool kRecursiveAnchor => "$recursiveAnchor"
  | FStr kRef => "$ref"
  | FStr kRecursiveRef => "$recursiveRef"
  | FMapSchema kDefs => "$defs"
  | FMapSchema kDefinitions => "definitions"
  | FStr kComment => "$comment"
  | FSliceSchema kAllOf => "allOf"
  | FSliceSchema kAnyOf => "anyOf"
  | FSliceSchema kOneOf => "oneOf"
  | FPtrSchema kNot => "not"
  | FPtrSchema kIf => "if"
  | FPtrSchema kThen => "then"
  | FPtrSchema kElse => "else"
  | FMapSchema kDependentSchemas => "dependentSchemas"
  | FAny kType => "type"
  | FSliceStr kEnum => "enum"
  | FAny kConst => "const"
  | FAny kItems => "items"
  | FPtrSchema kAdditionalItems => "additionalItems"
  | FPtrSchema kUnevaluatedItems => "unevaluatedItems"
  | FPtrSchema kContains => "contains"
  | FUint kMaxItems => "maxItems"
  | FUint kMinItems => "minItems"
  | FBool kUniqueItems => "uniqueItems"
  | FUint kMaxContains => "maxContains"
  | FUint kMinContains => "minContains"
  | FMapSchema kProperties => "Properties"
  | FMapSchema kPatternProperties => "PatternProperties"
  | FPtrSchema kAdditionalProperties => "AdditionalProperties"
  | FPtrSchema kUnevaluatedProperties => "UnevaluatedProperties"
  | FPtrSchema kPropertyNames => "PropertyNames"
  | FUint kMaxProperties => "maxProperties"
  | FUint kMinProperties => "minProperties"
  | FSliceStr kRequired => "required"
  | FDependentRequired => "dependentRequired"
  | FFloat kMultipleOf => "multipleOf"
  | FFloat kMaximum => "maximum"
  | FFloat kExclusiveMaximum => "exclusiveMaximum"
  | FFloat kMinimum => "minimum"
  | FFloat kExclusiveMinimum => "exclusiveMinimum"
  | FUint kMaxLength => "maxLength"
  | FUint kMinLength => "minLength"
  | FStr kPattern => "pattern"
  | FStr kFormat => "format"
  end.

(** Whether the tag of the field says [omitempty]. *)
Definition omitempty (f : field) : bool :=
  match f with
  | FMapSchema kProperties | FMapSchema kPatternProperties
  | FPtrSchema kAdditionalProperties | FPtrSchema kUnevaluatedProperties
  | FPtrSchema kPropertyNames => false
  | _ => true
  end.

(** ** Matching an object key to a field

    [encoding/json] prefers a field whose name is the key, and otherwise
    takes the first field whose name equals the key under Unicode simple
    case folding. The names are ASCII, so folding only matters on ASCII
    letters and on the two runes that fold to one: U+212A (Kelvin sign, to
    k) and U+017F (long s, to s), here in UTF-8. *)
Definition upper (c : ascii) : ascii :=
  let n := nat_of_ascii c in
  if (97 <=? n)%nat && (n <=? 122)%nat then ascii_of_nat (n - 32) else c.

Fixpoint foldName (s : string) : string :=
  match s with
  | String "226" (String "132" (String "170" r)) => String "K" (foldName r)
  | String "197" (String "191" r) => String "S" (foldName r)
  | String c r => String (upper c) (foldName r)
  | EmptyString => EmptyString
  end.

Definition lookup_field (key : string) : option field :=
  match find (fun f => String.eqb (name f) key) fields with
  | Some f => Some f
  | None =>
      find (fun f => String.eqb (foldName (name f)) (foldName key)) fields
  end.

(** ** Decoding a JSON value into a field, by the Go type of the field

    Each decoder returns the new value of the destination. [null] sets a
    pointer, interface, slice or map to nil and leaves any other
    destination as it is. *)
Definition decode_ptr_string (x : json) : result json_error (option string) :=
  match x with
  | JNull => Ok None
  | JStr s => Ok (Some s)
  | _ => Err UnmarshalTypeError
  end.

Definition decode_bool (old : bool) (x : json) : result json_error bool :=
  match x with
  | JNull => Ok old
  | JBool b => Ok b
  | _ => Err UnmarshalTypeError
  end.

Definition decode_ptr_bool (x : json) : result json_error (option bool) :=
  match x with
  | JNull => Ok None
  | _ => b <- decode_bool false x ;; Ok (Some b)
  end.

Definition decode_ptr_uint64 (x : json) : result json_error (option uint64) :=
  match x with
  | JNull => Ok None
  | JNum lit =>
      match ParseUint lit with
      | Some n => Ok (Some n)
      | None => Err UnmarshalTypeError
      end
  | _ => Err UnmarshalTypeError
  end.

Definition decode_ptr_float64 (x : json)
  : result json_error (option float64) :=
  match x with
  | JNull => Ok None
  | JNum lit =>
      match ParseFloat lit with
      | Some f => Ok (Some f)
      | None => Err UnmarshalTypeError
      end
  | _ => Err UnmarshalTypeError
  end.

Definition decode_string (old : string) (x : json) : result json_error string :=
  match x with
  | JNull => Ok old
  | JStr s => Ok s
  | _ => Err UnmarshalTypeError
  end.

(** A JSON array into a slice: the slice is reset and each element is
    decoded into a fresh element. *)
Definition decode_slice {A} (elem : json -> result json_error A) (x : json)
  : result json_error (option (list A)) :=
  match x with
  | JNull => Ok None
  | JArr xs => l <- mapM elem xs ;; Ok (Some l)
  | _ => Err UnmarshalTypeError
  end.

(** A JSON object into a map: the map in place is kept, or made if nil, and
    each member is stored under its key, a later one over an earlier one. *)
Definition decode_map {A} (elem : json -> result json_error A)
  (old : option (list (string * A))) (x : json)
  : result json_error (option (list (string * A))) :=
  match x with
  | JNull => Ok None
  | JObj ms =>
      m <- foldM (fun kv m => a <- elem (snd kv) ;; Ok (map_set (fst kv) a m))
             ms (match old with Some m => m | None => [] end) ;;
      Ok (Some m)
  | _ => Err UnmarshalTypeError
  end.

Section Decode.

(** The method [UnmarshalJSON] of [*Schema], which [encoding/json] calls on every
    non-null value decoded into a [*Schema]. *)
Variable unmarshalJSON : Schema -> json -> result json_error Schema.

(** Into a [*Schema]: [null] makes it nil; otherwise the Schema pointed
    at, allocated first if the pointer is nil, gets the value. *)
Definition decode_ptr_Schema (old : option Schema) (x : json)
  : result json_error (option Schema) :=
  match x with
  | JNull => Ok None
  | _ =>
      s <- unmarshalJSON
             (match old with Some s => s | None => Schema_zero end) x ;;
      Ok (Some s)
  end.

Definition decode_field (f : field) (x : json) (o : schema)
  : result json_error schema :=
  match f with
  | FStr k => v <- decode_ptr_string x ;; Ok (set_str k v o)
  | FBool k => v <- decode_ptr_bool x ;; Ok (set_bool k v o)
  | FAny k => v <- valueInterface x ;; Ok (set_any k v o)
  | FExamples => v <- decode_slice valueInterface x ;; Ok (set_Examples v o)
  | FVocabulary =>
      v <- decode_map (decode_bool false) (Vocabulary o) x ;;
      Ok (set_Vocabulary v o)
  | FMapSchema k =>
      v <- decode_map (decode_ptr_Schema None) (get_mapSchema o k) x ;;
      Ok (set_mapSchema k v o)
  | FSliceSchema k =>
      v <- decode_slice (decode_ptr_Schema None) x ;;
      Ok (set_sliceSchema k v o)
  | FPtrSchema k =>
      v <- decode_ptr_Schema (get_ptrSchema o k) x ;;
      Ok (set_ptrSchema k v o)
  | FSliceStr k =>
      v <- decode_slice (decode_string EmptyString) x ;;
      Ok (set_sliceStr k v o)
  | FUint k => v <- decode_ptr_uint64 x ;; Ok (set_uint k v o)
  | FDependentRequired =>
      v <- decode_map (decode_slice (decode_string EmptyString))
             (DependentRequired o) x ;;
      Ok (set_DependentRequired v o)
  | FFloat k => v <- decode_ptr_float64 x ;; Ok (set_float k v o)
  end.

(** One member of a JSON object decoded into the struct: a key that
    matches no field is skipped. *)
Definition decode_member (kv : string * json) (o : schema)
  : result json_error schema :=
  match lookup_field (fst kv) with
  | Some f => decode_field f (snd kv) o
  | None => Ok o
  end.

(** [json.Unmarshal(data, p)] for [p] a [*schema] that is not nil: an
    object fills the fields member by member, [null] changes nothing, and
    nothing else fits a struct. *)
Definition Unmarshal_schema (data : json) (o : schema)
  : result json_error schema :=
  match data with
  | JNull => Ok o
  | JObj ms => foldM decode_member ms o
  | _ => Err UnmarshalTypeError
  end.

End Decode.

(** [func (s *Schema) UnmarshalJSON(data []byte) error], as the new state of
    the receiver. [encoding/json] hands the method the bytes of exactly one
    JSON value, without the white space around it, so [data] equals
    [[]byte("false")] exactly when that value is the literal [false], and
    the same for [true]. *)
Fixpoint UnmarshalJSON (s : Schema) (data : json) {struct data}
  : result json_error Schema :=
  match data with
  | JBool false => Ok (mkSchema (Some false) (Schema_schema s))
  | JBool true => Ok (mkSchema (Some true) (Schema_schema s))
  | _ =>
      o <- Unmarshal_schema UnmarshalJSON data (schema_zero Schema) ;;
      Ok (mkSchema (Schema_bool s) (Some o))
  end.

(** [json.Unmarshal(bs, s)] for [s := &Schema{}], on the value that [bs]
    holds. *)
Definition Unmarshal (data : json) : result json_error Schema :=
  UnmarshalJSON Schema_zero data.

(** ** Encoding: json.Marshal on a Schema

    [Schema] declares no [MarshalJSON], so [json.Marshal] encodes it as the
    struct it is: the embedded [*bool] is an unexported field that is not a
    struct and is left out, and the exported fields of the embedded
    [*schema] are promoted, or left out when that pointer is nil. The
    result is given as a JSON value, the members of an object in the order
    of the output. *)

Fixpoint insert_sorted {A} (kv : string * A) (l : list (string * A))
  : list (string * A) :=
  match l with
  | [] => [kv]
  | kv' :: l' =>
      if String.leb (fst kv) (fst kv') then kv :: l
      else kv' :: insert_sorted kv l'
  end.

(** Map keys are written in increasing byte order. *)
Definition sort_keys {A} (l : list (string * A)) : list (string * A) :=
  fold_right insert_sorted [] l.

Definition string_of_uint64 (n : uint64) : string :=
  DecimalString.NilZero.string_of_uint (N.to_uint (Z.to_N n)).

Definition encode_float64 (f : float64) : json :=
  match f with F64 lit => JNum lit end.

Definition encode_ptr {A} (enc : A -> json) (p : option A) : json :=
  match p with
  | None => JNull
  | Some a => enc a
  end.

Definition encode_slice {A} (enc : A -> json) (l : option (list A)) : json :=
  encode_ptr (fun l => JArr (map enc l)) l.

Definition encode_map {A} (enc : A -> json) (m : option (list (string * A)))
  : json :=
  encode_ptr
    (fun m => JObj (sort_keys (map (fun kv => (fst kv, enc (snd kv))) m))) m.

Fixpoint encode_any (a : any) : json :=
  match a with
  | ABool b => JBool b
  | AFloat f => encode_float64 f
  | AString s => JStr s
  | ASlice l => JArr (map (encode_ptr encode_any) l)
  | AMap m =>
      JObj (sort_keys
              (map (fun kv => (fst kv, encode_ptr encode_any (snd kv))) m))
  end.

Definition encode_interface : option any -> json := encode_ptr encode_any.

(** [isEmptyValue]: a nil pointer or interface, or a slice or map of length
    zero. *)
Definition nil_ptr {A} (p : option A) : bool :=
  match p with None => true | Some _ => false end.

Definition empty_len {A} (l : option (list A)) : bool :=
  match l with None | Some [] => true | Some (_ :: _) => false end.

Section Encode.

Variable marshal : Schema -> json.

(** The value of a field: whether it is empty, and its encoding. *)
Definition encode_field (o : schema) (f : field) : bool * json :=
  match f with
  | FStr k => (nil_ptr (get_str o k), encode_ptr JStr (get_str o k))
  | FBool k => (nil_ptr (get_bool o k), encode_ptr JBool (get_bool o k))
  | FAny k => (nil_ptr (get_any o k), encode_interface (get_any o k))
  | FExamples =>
      (empty_len (Examples o), encode_slice encode_interface (Examples o))
  | FVocabulary =>
      (empty_len (Vocabulary o), encode_map JBool (Vocabulary o))
  | FMapSchema k =>
      (empty_len (get_mapSchema o k),
       encode_map (encode_ptr marshal) (get_mapSchema o k))
  | FSliceSchema k =>
      (empty_len (get_sliceSchema o k),
       encode_slice (encode_ptr marshal) (get_sliceSchema o k))
  | FPtrSchema k =>
      (nil_ptr (get_ptrSchema o k), encode_ptr marshal (get_ptrSchema o k))
  | FSliceStr k =>
      (empty_len (get_sliceStr o k), encode_slice JStr (get_sliceStr o k))
  | FUint k =>
      (nil_ptr (get_uint o k),
       encode_ptr (fun n => JNum (string_of_uint64 n)) (get_uint o k))
  | FDependentRequired =>
      (empty_len (DependentRequired o),
       encode_map (encode_slice JStr) (DependentRequired o))
  | FFloat k =>
      (nil_ptr (get_float o k), encode_ptr encode_float64 (get_float o k))
  end.

(** The members written for a struct: each field in order under its
    name, unless it is tagged [omitempty] and empty. *)
Definition encode_struct (o : schema) : list (string * json) :=
  flat_map
    (fun f =>
       let (empty, v) := encode_field o f in
       if omitempty f && empty then [] else [(name f, v)])
    fields.

End Encode.

(** [json.Marshal(s)] for [s] a [Schema] or a [*Schema] that is not nil. *)
Fixpoint Marshal (s : Schema) : json :=
  match s with
  | mkSchema _ None => JObj []
  | mkSchema _ (Some o) => JObj (encode_struct Marshal o)
  end.

(** ** JSON text

    The bytes of a document are read by a machine that, like the scanner of
    [encoding/json], takes one byte at a time and keeps a stack of the
    arrays and objects that are open. *)

Definition byte_val (c : ascii) : Z := Z.of_N (N_of_ascii c).

Definition byte_of (n : Z) : ascii := ascii_of_N (Z.to_N n).

Definition in_range (lo hi : Z) (c : ascii) : bool :=
  ((lo <=? byte_val c) && (byte_val c <=? hi))%Z.

Definition hex_val (c : ascii) : option Z :=
  if in_range 48 57 c then Some (byte_val c - 48)%Z
  else if in_range 97 102 c then Some (byte_val c - 87)%Z
  else if in_range 65 70 c then Some (byte_val c - 55)%Z
  else None.

(** [getu4] on the four bytes after a backslash and the letter u. *)
Definition hex4 (a b c d : ascii) : option Z :=
  match hex_val a, hex_val b, hex_val c, hex_val d with
  | Some x, Some y, Some z, Some w => Some (((x * 16 + y) * 16 + z) * 16 + w)%Z
  | _, _, _, _ => None
  end.

(** [utf8.EncodeRune] on a rune that is not a surrogate. *)
Definition EncodeRune (r : Z) : string :=
  if (r <? 128)%Z then String (byte_of r) EmptyString
  else if (r <? 2048)%Z then
    String (byte_of (192 + r / 64))
      (String (byte_of (128 + r mod 64)) EmptyString)
  else if (r <? 65536)%Z then
    String (byte_of (224 + r / 4096))
      (String (byte_of (128 + (r / 64) mod 64))
         (String (byte_of (128 + r mod 64)) EmptyString))
  else
    String (byte_of (240 + r / 262144))
      (String (byte_of (128 + (r / 4096) mod 64))
         (String (byte_of (128 + (r / 64) mod 64))
            (String (byte_of (128 + r mod 64)) EmptyString))).

Definition ReplacementChar : Z := 65533.

Definition is_high_surrogate (r : Z) : bool := ((55296 <=? r) && (r <? 56320))%Z.
Definition is_low_surrogate (r : Z) : bool := ((56320 <=? r) && (r <? 57344))%Z.
Definition IsSurrogate (r : Z) : bool := ((55296 <=? r) && (r <? 57344))%Z.

Definition cont (c : ascii) : bool := in_range 128 191 c.

(** The length of the well-formed UTF-8 sequence at the head of a string
    that starts with [c] and goes on with [r]; [None] where
    [utf8.DecodeRune] gives RuneError. *)
Definition utf8_len (c : ascii) (r : string) : option nat :=
  match r with
  | String c1 r1 =>
      if in_range 194 223 c && cont c1 then Some 2%nat
      else
        match r1 with
        | String c2 r2 =>
            if (Ascii.eqb c "224" && in_range 160 191 c1
                || (in_range 225 236 c || in_range 238 239 c) && cont c1
                || Ascii.eqb c "237" && in_range 128 159 c1) && cont c2
            then Some 3%nat
            else
              match r2 with
              | String c3 _ =>
                  if (Ascii.eqb c "240" && in_range 144 191 c1
                      || in_range 241 243 c && cont c1
                      || Ascii.eqb c "244" && in_range 128 143 c1)
                     && cont c2 && cont c3
                  then Some 4%nat
                  else None
              | EmptyString => None
              end
        | EmptyString => None
        end
  | EmptyString => None
  end.

(** [unquote] on what stands between the quotes of a string literal:
    escapes are replaced, a surrogate that is not the first half of a pair
    and a byte that is not part of well-formed UTF-8 become U+FFFD.
    [None] when the literal is not valid JSON. *)
Fixpoint unquote (s : string) : option string :=
  match s with
  | EmptyString => Some EmptyString
  | String "\" (String "u" (String h1 (String h2 (String h3 (String h4 r))))) =>
      match hex4 h1 h2 h3 h4 with
      | None => None
      | Some rr =>
          if IsSurrogate rr then
            match r with
            | String "\" (String "u"
                (String l1 (String l2 (String l3 (String l4 r'))))) =>
                match hex4 l1 l2 l3 l4 with
                | Some rr1 =>
                    if is_high_surrogate rr && is_low_surrogate rr1 then
                      option_map
                        (append (EncodeRune
                           ((rr - 55296) * 1024 + (rr1 - 56320) + 65536)%Z))
                        (unquote r')
                    else
                      option_map (append (EncodeRune ReplacementChar))
                        (unquote r)
                | None =>
                    option_map (append (EncodeRune ReplacementChar))
                      (unquote r)
                end
            | _ => option_map (append (EncodeRune ReplacementChar)) (unquote r)
            end
          else option_map (append (EncodeRune rr)) (unquote r)
      end
  | String "\" (String c r) =>
      let out b := option_map (String b) (unquote r) in
      if Ascii.eqb c "034" || Ascii.eqb c "\" || Ascii.eqb c "/" then out c
      else if Ascii.eqb c "b" then out "008"%char
      else if Ascii.eqb c "f" then out "012"%char
      else if Ascii.eqb c "n" then out "010"%char
      else if Ascii.eqb c "r" then out "013"%char
      else if Ascii.eqb c "t" then out "009"%char
      else None
  | String "\" EmptyString => None
  | String c r =>
      if (byte_val c <? 32)%Z || Ascii.eqb c "034" then None
      else if (byte_val c <? 128)%Z then option_map (String c) (unquote r)
      else
        match utf8_len c r, r with
        | Some 2%nat, String c1 r1 =>
            option_map (fun t => String c (String c1 t)) (unquote r1)
        | Some 3%nat, String c1 (String c2 r2) =>
            option_map (fun t => String c (String c1 (String c2 t)))
              (unquote r2)
        | Some 4%nat, String c1 (String c2 (String c3 r3)) =>
            option_map
              (fun t => String c (String c1 (String c2 (String c3 t))))
              (unquote r3)
        | _, _ => option_map (append (EncodeRune ReplacementChar)) (unquote r)
        end
  end.

Definition is_space (c : ascii) : bool :=
  Ascii.eqb c " " || Ascii.eqb c "009" || Ascii.eqb c "013"
  || Ascii.eqb c "010".

Definition number_byte (c : ascii) : bool :=
  is_digit c || Ascii.eqb c "-" || Ascii.eqb c "+" || Ascii.eqb c "."
  || Ascii.eqb c "e" || Ascii.eqb c "E".

(** An array or object that is open: what it holds so far, last first, and
    for an object the key whose value is being read. *)
Inductive frame : Type :=
| FArr (elems : list json)
| FObj (members : list (string * json)) (key : option string).

(** What the machine expects next. *)
Inductive mode : Type :=
| MValue                            (* a value *)
| MArrStart                         (* a value or the end of the array *)
| MObjStart                         (* a key or the end of the object *)
| MObjKey                           (* a key *)
| MKeyStr (raw : string) (esc : bool)   (* inside a key *)
| MColon                            (* the colon after a key *)
| MStr (raw : string) (esc : bool)      (* inside a string *)
| MNum (raw : string)               (* inside a number *)
| MLit (rest : string) (v : json)   (* inside true, false or null *)
| MEnd.                             (* after a value *)

Record scanner : Type := mkScanner {
  stack : list frame;
  current : mode;
  top : option json
}.

Definition maxNestingDepth : Z := 10000.

Fixpoint rev_string (acc s : string) : string :=
  match s with
  | EmptyString => acc
  | String c r => rev_string (String c acc) r
  end.

(** A finished value goes to the array or object it stands in, or is the
    value of the document. *)
Definition deliver (st : list frame) (v : json) : option scanner :=
  match st with
  | [] => Some (mkScanner [] MEnd (Some v))
  | FArr es :: st' => Some (mkScanner (FArr (v :: es) :: st') MEnd None)
  | FObj ms (Some k) :: st' =>
      Some (mkScanner (FObj ((k, v) :: ms) None :: st') MEnd None)
  | FObj _ None :: _ => None
  end.

Definition push (st : list frame) (f : frame) (m : mode) : option scanner :=
  if (Z.of_nat (length (f :: st)) <=? maxNestingDepth)%Z
  then Some (mkScanner (f :: st) m None)
  else None.

Definition step_value (st : list frame) (c : ascii) : option scanner :=
  if Ascii.eqb c "{" then push st (FObj [] None) MObjStart
  else if Ascii.eqb c "[" then push st (FArr []) MArrStart
  else if Ascii.eqb c "034" then Some (mkScanner st (MStr EmptyString false) None)
  else if Ascii.eqb c "-" || is_digit c
  then Some (mkScanner st (MNum (String c EmptyString)) None)
  else if Ascii.eqb c "t" then Some (mkScanner st (MLit "rue" (JBool true)) None)
  else if Ascii.eqb c "f" then Some (mkScanner st (MLit "alse" (JBool false)) None)
  else if Ascii.eqb c "n" then Some (mkScanner st (MLit "ull" JNull) None)
  else None.

Definition step_end (st : list frame) (tp : option json) (c : ascii)
  : option scanner :=
  if is_space c then Some (mkScanner st MEnd tp)
  else
    match st with
    | FArr es :: st' =>
        if Ascii.eqb c "," then Some (mkScanner st MValue None)
        else if Ascii.eqb c "]" then deliver st' (JArr (List.rev es))
        else None
    | FObj ms None :: st' =>
        if Ascii.eqb c "," then Some (mkScanner st MObjKey None)
        else if Ascii.eqb c "}" then deliver st' (JObj (List.rev ms))
        else None
    | _ => None
    end.

Definition set_key (st : list frame) (k : string) : option scanner :=
  match st with
  | FObj ms _ :: st' => Some (mkScanner (FObj ms (Some k) :: st') MColon None)
  | _ => None
  end.

Definition end_number (st : list frame) (raw : string) : option scanner :=
  let lit := rev_string EmptyString raw in
  if valid_number lit then deliver st (JNum lit) else None.

(** One byte of input. *)
Definition step (s : scanner) (c : ascii) : option scanner :=
  let st := stack s in
  match current s with
  | MValue =>
      if is_space c then Some s else step_value st c
  | MArrStart =>
      if is_space c then Some s
      else if Ascii.eqb c "]" then
        match st with
        | FArr _ :: st' => deliver st' (JArr [])
        | _ => None
        end
      else step_value st c
  | MObjStart =>
      if is_space c then Some s
      else if Ascii.eqb c "}" then
        match st with
        | FObj _ _ :: st' => deliver st' (JObj [])
        | _ => None
        end
      else if Ascii.eqb c "034"
      then Some (mkScanner st (MKeyStr EmptyString false) None)
      else None
  | MObjKey =>
      if is_space c then Some s
      else if Ascii.eqb c "034"
      then Some (mkScanner st (MKeyStr EmptyString false) None)
      else None
  | MKeyStr raw esc =>
      if esc then Some (mkScanner st (MKeyStr (String c raw) false) None)
      else if Ascii.eqb c "\"
      then Some (mkScanner st (MKeyStr (String c raw) true) None)
      else if Ascii.eqb c "034" then
        match unquote (rev_string EmptyString raw) with
        | Some k => set_key st k
        | None => None
        end
      else Some (mkScanner st (MKeyStr (String c raw) false) None)
  | MColon =>
      if is_space c then Some s
      else if Ascii.eqb c ":" then Some (mkScanner st MValue None)
      else None
  | MStr raw esc =>
      if esc then Some (mkScanner st (MStr (String c raw) false) None)
      else if Ascii.eqb c "\"
      then Some (mkScanner st (MStr (String c raw) true) None)
      else if Ascii.eqb c "034" then
        match unquote (rev_string EmptyString raw) with
        | Some v => deliver st (JStr v)
        | None => None
        end
      else Some (mkScanner st (MStr (String c raw) false) None)
  | MNum raw =>
      if number_byte c then Some (mkScanner st (MNum (String c raw)) None)
      else
        match end_number st raw with
        | Some s' => step_end (stack s') (top s') c
        | None => None
        end
  | MLit rest v =>
      match rest with
      | String c' EmptyString => if Ascii.eqb c c' then deliver st v else None
      | String c' r =>
          if Ascii.eqb c c' then Some (mkScanner st (MLit r v) None) else None
      | EmptyString => None
      end
  | MEnd => step_end st (top s) c
  end.

Fixpoint run_scanner (s : scanner) (text : string) : option scanner :=
  match text with
  | EmptyString => Some s
  | String c r =>
      match step s c with
      | Some s' => run_scanner s' r
      | None => None
      end
  end.

(** The value of a document, or [None] for text that is not valid JSON
    (the [SyntaxError] of [checkValid]). *)
Definition scan (text : string) : option json :=
  match run_scanner (mkScanner [] MValue None) text with
  | Some s =>
      match stack s, current s with
      | [], MEnd => top s
      | [], MNum raw =>
          match end_number [] raw with
          | Some s' => top s'
          | None => None
          end
      | _, _ => None
      end
  | None => None
  end.

(** [json.Unmarshal(bs, s)] for [s := &Schema{}]. *)
Definition json_Unmarshal (bs : string) : result json_error Schema :=
  match scan bs with
  | Some v => Unmarshal v
  | None => Err SyntaxError
  end.

(** ** URLs: net/url.Parse

    The functions of [net/url] that [url.Parse] runs, with the fields of
    [url.URL] they fill. *)

Fixpoint drop (n : nat) (s : string) : string :=
  match n, s with
  | S n', String _ r => drop n' r
  | _, _ => s
  end.

Fixpoint take (n : nat) (s : string) : string :=
  match n, s with
  | S n', String c r => String c (take n' r)
  | _, _ => EmptyString
  end.

(** [strings.IndexByte]. *)
Fixpoint IndexByte (s : string) (c : ascii) : option nat :=
  match s with
  | EmptyString => None
  | String c' r =>
      if Ascii.eqb c c' then Some 0%nat else option_map S (IndexByte r c)
  end.

(** [strings.LastIndex] for a separator of one byte. *)
Fixpoint LastIndexByte (s : string) (c : ascii) : option nat :=
  match s with
  | EmptyString => None
  | String c' r =>
      match LastIndexByte r c with
      | Some i => Some (S i)
      | None => if Ascii.eqb c c' then Some 0%nat else None
      end
  end.

(** [strings.Index]. *)
Fixpoint Index (s sub : string) : option nat :=
  if String.prefix sub s then Some 0%nat
  else
    match s with
    | EmptyString => None
    | String _ r => option_map S (Index r sub)
    end.

Definition HasPrefix (s p : string) : bool := String.prefix p s.

Fixpoint Count (s : string) (c : ascii) : nat :=
  match s with
  | EmptyString => 0%nat
  | String c' r => ((if Ascii.eqb c c' then 1 else 0) + Count r c)%nat
  end.

Definition last_byte (s : string) : option ascii :=
  match rev_string EmptyString s with
  | String c _ => Some c
  | EmptyString => None
  end.

Definition lower (c : ascii) : ascii :=
  if in_range 65 90 c then byte_of (byte_val c + 32) else c.

Fixpoint ToLower (s : string) : string :=
  match s with
  | EmptyString => EmptyString
  | String c r => String (lower c) (ToLower r)
  end.

(** [split(s, c, cutc)]: [s] cut at the first [c], which is left out of the
    second part when [cutc] is set; without a [c], [s] and the empty
    string. *)
Definition split (s : string) (c : ascii) (cutc : bool) : string * string :=
  match IndexByte s c with
  | None => (s, EmptyString)
  | Some i => (take i s, drop (if cutc then S i else i) s)
  end.

Inductive url_error : Type :=
| InvalidControlCharacter
| MissingProtocolScheme
| FirstPathSegmentColon
| MissingBracketInHost
| InvalidPort (colonPort : string)
| InvalidUserinfo
| EscapeError (s : string)
| InvalidHostError (s : string).

Inductive encoding : Type :=
| encodePath | encodeUserPassword | encodeHost | encodeZone | encodeFragment.

Definition is_alnum (c : ascii) : bool :=
  in_range 97 122 c || in_range 65 90 c || in_range 48 57 c.

Definition byte_in (c : ascii) (set : string) : bool :=
  match IndexByte set c with Some _ => true | None => false end.

(** The bytes [! $ & ' ( ) * + , ; = : [ ] < >] and the double quote, which a
    host may hold as they are. *)
Definition host_bytes : string := String "034" "!$&'()*+,;=:[]<>".

(** [shouldEscape(c, mode)]. *)
Definition shouldEscape (c : ascii) (mode : encoding) : bool :=
  if is_alnum c then false
  else if match mode with encodeHost | encodeZone => byte_in c host_bytes
                     | _ => false end
  then false
  else if byte_in c "-_.~" then false
  else if byte_in c "$&+,/:;=?@" then
    match mode with
    | encodePath => Ascii.eqb c "?"
    | encodeUserPassword => byte_in c "@/?:"
    | encodeFragment => false
    | encodeHost | encodeZone => true
    end
  else
    match mode with
    | encodeFragment => negb (byte_in c "!()*")
    | _ => true
    end.

(** [unescape(s, mode)]: each [%XX] becomes the byte it names. *)
Fixpoint unescape (s : string) (mode : encoding) : result url_error string :=
  match s with
  | EmptyString => Ok EmptyString
  | String "%" r =>
      match r with
      | String a (String b r') =>
          match hex_val a, hex_val b with
          | Some x, Some y =>
              let esc := String "%" (String a (String b EmptyString)) in
              let v := byte_of (x * 16 + y) in
              let bad :=
                match mode with
                | encodeHost => (x <? 8)%Z && negb (String.eqb esc "%25")
                | encodeZone =>
                    negb (String.eqb esc "%25") && negb (Ascii.eqb v " ")
                    && shouldEscape v encodeHost
                | _ => false
                end in
              if bad then Err (EscapeError esc)
              else t <- unescape r' mode ;; Ok (String v t)
          | _, _ => Err (EscapeError (take 3 s))
          end
      | _ => Err (EscapeError (take 3 s))
      end
  | String c r =>
      if match mode with encodeHost | encodeZone => true | _ => false end
         && (byte_val c <? 128)%Z && shouldEscape c encodeHost
      then Err (InvalidHostError (String c EmptyString))
      else t <- unescape r mode ;; Ok (String c t)
  end.

Definition upperhex (n : Z) : ascii :=
  if (n <? 10)%Z then byte_of (48 + n) else byte_of (55 + n).

(** [escape(s, mode)]. *)
Fixpoint escape (s : string) (mode : encoding) : string :=
  match s with
  | EmptyString => EmptyString
  | String c r =>
      if shouldEscape c mode then
        String "%" (String (upperhex (byte_val c / 16))
                      (String (upperhex (byte_val c mod 16)) (escape r mode)))
      else String c (escape r mode)
  end.

(** [url.Userinfo]: the user name and, when one is set, the password. *)
Record Userinfo : Type := mkUserinfo {
  username : string;
  password : option string
}.

(** [url.URL]. *)
Record URL : Type := mkURL {
  Scheme : string;
  Opaque : string;
  User : option Userinfo;
  Host : string;
  Path : string;
  RawPath : string;
  ForceQuery : bool;
  RawQuery : string;
  Fragment : string
}.

Fixpoint stringContainsCTLByte (s : string) : bool :=
  match s with
  | EmptyString => false
  | String c r =>
      (byte_val c <? 32)%Z || Ascii.eqb c "127" || stringContainsCTLByte r
  end.

(** [getscheme]: the scheme and what follows its colon; no scheme when a
    byte that a scheme cannot hold comes before any colon. *)
Fixpoint getscheme_from (i : nat) (rest rawurl : string)
  : result url_error (string * string) :=
  match rest with
  | EmptyString => Ok (EmptyString, rawurl)
  | String c r =>
      if in_range 97 122 c || in_range 65 90 c
      then getscheme_from (S i) r rawurl
      else if in_range 48 57 c || byte_in c "+-." then
        match i with
        | O => Ok (EmptyString, rawurl)
        | S _ => getscheme_from (S i) r rawurl
        end
      else if Ascii.eqb c ":" then
        match i with
        | O => Err MissingProtocolScheme
        | S _ => Ok (take i rawurl, r)
        end
      else Ok (EmptyString, rawurl)
  end.

Definition getscheme (rawurl : string) : result url_error (string * string) :=
  getscheme_from 0 rawurl rawurl.

Fixpoint all_digits (s : string) : bool :=
  match s with
  | EmptyString => true
  | String c r => is_digit c && all_digits r
  end.

Definition validOptionalPort (port : string) : bool :=
  match port with
  | EmptyString => true
  | String ":" r => all_digits r
  | String _ _ => false
  end.

Fixpoint validUserinfo (s : string) : bool :=
  match s with
  | EmptyString => true
  | String c r => (is_alnum c || byte_in c "-._:~!$&'()*+,;=%@") && validUserinfo r
  end.

Definition parseHost (host : string) : result url_error string :=
  if HasPrefix host "[" then
    match LastIndexByte host "]" with
    | None => Err MissingBracketInHost
    | Some i =>
        let colonPort := drop (S i) host in
        if negb (validOptionalPort colonPort) then Err (InvalidPort colonPort)
        else
          match Index (take i host) "%25" with
          | Some zone =>
              host1 <- unescape (take zone host) encodeHost ;;
              host2 <- unescape (drop zone (take i host)) encodeZone ;;
              host3 <- unescape (drop i host) encodeHost ;;
              Ok (host1 ++ host2 ++ host3)%string
          | None => unescape host encodeHost
          end
    end
  else
    match LastIndexByte host ":" with
    | Some i =>
        if validOptionalPort (drop i host) then unescape host encodeHost
        else Err (InvalidPort (drop i host))
    | None => unescape host encodeHost
    end.

Definition parseAuthority (authority : string)
  : result url_error (option Userinfo * string) :=
  match LastIndexByte authority "@" with
  | None => host <- parseHost authority ;; Ok (None, host)
  | Some i =>
      host <- parseHost (drop (S i) authority) ;;
      let userinfo := take i authority in
      if negb (validUserinfo userinfo) then Err InvalidUserinfo
      else
        match IndexByte userinfo ":" with
        | None =>
            u <- unescape userinfo encodeUserPassword ;;
            Ok (Some (mkUserinfo u None), host)
        | Some _ =>
            let (un, pw) := split userinfo ":" true in
            un' <- unescape un encodeUserPassword ;;
            pw' <- unescape pw encodeUserPassword ;;
            Ok (Some (mkUserinfo un' (Some pw')), host)
        end
  end.

(** [parse(rawurl, false)]. *)
Definition parse (rawurl : string) : result url_error URL :=
  if stringContainsCTLByte rawurl then Err InvalidControlCharacter
  else if String.eqb rawurl "*"
  then Ok (mkURL EmptyString EmptyString None EmptyString "*" EmptyString
             false EmptyString EmptyString)
  else
    sr <- getscheme rawurl ;;
    let scheme := ToLower (fst sr) in
    let '(rest, force, rawquery) :=
      if match last_byte (snd sr) with
         | Some c => Ascii.eqb c "?"
         | None => false
         end && Nat.eqb (Count (snd sr) "?") 1
      then (take (String.length (snd sr) - 1) (snd sr), true, EmptyString)
      else let (r, q) := split (snd sr) "?" true in (r, false, q) in
    if negb (HasPrefix rest "/") && nonempty scheme
    then Ok (mkURL scheme rest None EmptyString EmptyString EmptyString
               force rawquery EmptyString)
    else if negb (HasPrefix rest "/")
            && match IndexByte rest ":", IndexByte rest "/" with
               | Some colon, Some slash => (colon <? slash)%nat
               | Some _, None => true
               | None, _ => false
               end
    then Err FirstPathSegmentColon
    else
      au <- (if (nonempty scheme || negb (HasPrefix rest "///"))
                && HasPrefix rest "//"
             then
               let (authority, rest') := split (drop 2 rest) "/" false in
               uh <- parseAuthority authority ;;
               Ok (fst uh, snd uh, rest')
             else Ok (None, EmptyString, rest)) ;;
      let '(user, host, rest') := au in
      path <- unescape rest' encodePath ;;
      Ok (mkURL scheme EmptyString user host path
            (if String.eqb rest' (escape path encodePath) then EmptyString
             else rest')
            force rawquery EmptyString).

(** [url.Parse(rawurl)]. *)
Definition url_Parse (rawurl : string) : result url_error URL :=
  let (u, frag) := split rawurl "#" true in
  url <- parse u ;;
  match frag with
  | EmptyString => Ok url
  | _ =>
      f <- unescape frag encodeFragment ;;
      Ok (mkURL (Scheme url) (Opaque url) (User url) (Host url) (Path url)
            (RawPath url) (ForceQuery url) (RawQuery url) f)
  end.

(** ** Retrieval: the file system and the HTTP client *)

(** The error of a failed read or request, as reported by the collaborator. *)
Definition cause := string.

(** [http.Response]: the status code, and what reading the body to its end
    gives. *)
Record Response : Type := mkResponse {
  StatusCode : Z;
  Body : result cause string
}.

(** The errors [FromURI] returns: those of [url.Parse], of the retrieval and
    of [json.Unmarshal], passed on as they are, and the two it makes. *)
Inductive error : Type :=
| URLError (e : url_error)
| RetrievalError (c : cause)
| JSONError (e : json_error)
| Non200Response           (* HTTP(S) URI returned a non-200 response *)
| UnsupportedScheme (scheme : string).   (* unsupported URI scheme: %q *)

(** A computation that reads files and talks HTTP: each node is one call to
    a collaborator, with what is done with its answer. *)
Inductive IO (A : Type) : Type :=
| Ret (a : A)
| ReadFile (path : string) (k : result cause string -> IO A)
| HttpGet (u : URL) (k : result cause Response -> IO A)
| ReadAll (resp : Response) (k : result cause string -> IO A)
| Close (resp : Response) (k : IO A).
Arguments Ret {A} a.
Arguments ReadFile {A} path k.
Arguments HttpGet {A} u k.
Arguments ReadAll {A} resp k.
Arguments Close {A} resp k.

(** [json.Unmarshal(bs, s)] and the two returns that follow it. *)
Definition unmarshal_result (bs : string) : result error Schema :=
  match json_Unmarshal bs with
  | Ok s => Ok s
  | Err e => Err (JSONError e)
  end.

(** [func FromURI(uri string)], with its two results as one. The GET is sent to
    [u.String()], which the fields of [u] determine. *)
Definition FromURI (uri : string) : IO (result error Schema) :=
  match url_Parse uri with
  | Err e => Ret (Err (URLError e))
  | Ok u =>
      if String.eqb (Scheme u) "file" then
        ReadFile (Path u) (fun r =>
          match r with
          | Err c => Ret (Err (RetrievalError c))
          | Ok bs => Ret (unmarshal_result bs)
          end)
      else if String.eqb (Scheme u) "http" || String.eqb (Scheme u) "https"
      then
        HttpGet u (fun r =>
          match r with
          | Err c => Ret (Err (RetrievalError c))
          | Ok resp =>
              if negb (StatusCode resp =? 200)%Z then Ret (Err Non200Response)
              else
                ReadAll resp (fun b =>
                  Close resp
                    (Ret (match b with
                          | Err c => Err (RetrievalError c)
                          | Ok bs => unmarshal_result bs
                          end)))
          end)
      else Ret (Err (UnsupportedScheme (Scheme u)))
  end.

(** The collaborators: a file system and an HTTP client. *)
Record world : Type := mkWorld {
  readFile : string -> result cause string;
  httpGet : URL -> result cause Response
}.

(** What a run asked of the collaborators, in order. *)
Inductive event : Type :=
| EvReadFile (path : string)
| EvHttpGet (u : URL)
| EvReadAll
| EvClose.

Fixpoint run {A} (w : world) (m : IO A) : list event * A :=
  match m with
  | Ret a => ([], a)
  | ReadFile path k =>
      let (t, a) := run w (k (readFile w path)) in (EvReadFile path :: t, a)
  | HttpGet u k =>
      let (t, a) := run w (k (httpGet w u)) in (EvHttpGet u :: t, a)
  | ReadAll resp k =>
      let (t, a) := run w (k (Body resp)) in (EvReadAll :: t, a)
  | Close resp k =>
      let (t, a) := run w k in (EvClose :: t, a)
  end.

(** JSON texts are written below with an apostrophe where the text has a
    double quote. *)
Fixpoint dq (s : string) : string :=
  match s with
  | EmptyString => EmptyString
  | String c r => String (if Ascii.eqb c "'" then "034"%char else c) (dq r)
  end.

Definition members (v : json) : list (string * json) :=
  match v with
  | JObj ms => ms
  | _ => []
  end.

(** ** Worlds and documents used in the examples *)

(** A file system where every path holds the document [{}]; no HTTP. *)
Definition world_empty_object : world :=
  mkWorld (fun _ => Ok "{}") (fun _ => Err "no network").

(** An HTTP client that answers every request with status 404 and a body
    that would parse. *)
Definition world_404 : world :=
  mkWorld (fun _ => Err "no such file")
          (fun _ => Ok (mkResponse 404 (Ok "true"))).

Definition is_JStr (x : json) : bool :=
  match x with JStr _ => true | _ => false end.

(** Strings, booleans and arrays of them. *)
Fixpoint plain (x : json) : bool :=
  match x with
  | JStr _ | JBool _ => true
  | JArr xs => forallb plain xs
  | _ => false
  end.

(** The values that a keyword gives back as they are: a string for a
    string keyword, a boolean for a boolean keyword, a numeral for an
    unsigned integer keyword, an array of strings that is not empty for
    enum and required, and a plain value for default and const. *)
Definition keeps_value (f : field) (x : json) : bool :=
  match f, x with
  | FStr _, JStr _ => true
  | FBool _, JBool _ => true
  | FUint _, JNum lit => valid_number lit
  | FSliceStr _, JArr (y :: ys) => forallb is_JStr (y :: ys)
  | FAny kDefault, _ | FAny kConst, _ => plain x
  | _, _ => false
  end.

(** The bytes of a plain relative path: letters, digits, [- _ . ~] and the
    slash. *)
Definition path_byte (c : ascii) : bool := is_alnum c || byte_in c "-_.~/".

Fixpoint all_bytes (p : ascii -> bool) (s : string) : bool :=
  match s with
  | EmptyString => true
  | String c r => p c && all_bytes p r
  end.

(** ** The example program

    [func main] of the example: it loads one fixed URI, prints the error,
    prints what AsBool says of the AdditionalProperties of the result, and
    dumps the result. *)
Definition example_uri : string :=
  "https://raw.githubusercontent.com/OAI/OpenAPI-Specification/master/schemas/v3.0/schema.json".

(** What the program writes: [fmt.Println(err)] with the error or nil,
    [fmt.Println] of the two results of AsBool, [spew.Dump(s)]. *)
Inductive output : Type :=
| PrintErr (err : option error)
| PrintBools (value ok : bool)
| Dump (s : Schema).

(** How the program ends: it returns, or it stops on a nil pointer
    dereference. *)
Inductive outcome : Type :=
| Returned
| Panicked.

(** [s.AdditionalProperties] for [s] a [*Schema]: the field is promoted from
    the embedded [*schema], so the selector goes through [s] and through
    [s.schema]; [None] when one of them is nil. *)
Definition select_AdditionalProperties (s : option Schema)
  : option (option Schema) :=
  match s with
  | None => None
  | Some s' =>
      match Schema_schema s' with
      | None => None
      | Some o => Some (AdditionalProperties o)
      end
  end.

(** [p.AsBool()] for [p] a [*Schema]: the method reads [s.bool] first, which
    dereferences the receiver; [None] when [p] is nil. *)
Definition AsBool_ptr (p : option Schema) : option (bool * bool) :=
  option_map AsBool p.

(** The three statements after the call of FromURI, on its two results. *)
Definition main_after (r : result error Schema) : list output * outcome :=
  let s := match r with Ok s => Some s | Err _ => None end in
  let err := match r with Ok _ => None | Err e => Some e end in
  match select_AdditionalProperties s, s with
  | Some ap, Some s' =>
      match AsBool_ptr ap with
      | Some (value, ok) =>
          ([PrintErr err; PrintBools value ok; Dump s'], Returned)
      | None => ([PrintErr err], Panicked)
      end
  | _, _ => ([PrintErr err], Panicked)
  end.

(** [func main()] in a world: what it asked of the collaborators, what it
    wrote, how it ended. *)
Definition main (w : world) : list event * list output * outcome :=
  let (t, r) := run w (FromURI example_uri) in
  let (out, end_) := main_after r in
  (t, out, end_).

(** ** Notions used in the statements *)

(** The fields that the keys of an object select, in the order of the
    members. *)
Definition matched_fields (ms : list (string * json)) : list field :=
  flat_map (fun kv => match lookup_field (fst kv) with
                      | Some f => [f]
                      | None => []
                      end) ms.

(** Whether a field holds nil. *)
Definition nil_field (o : schema) (f : field) : bool :=
  match f with
  | FStr k => nil_ptr (get_str o k)
  | FBool k => nil_ptr (get_bool o k)
  | FAny k => nil_ptr (get_any o k)
  | FExamples => nil_ptr (Examples o)
  | FVocabulary => nil_ptr (Vocabulary o)
  | FMapSchema k => nil_ptr (get_mapSchema o k)
  | FSliceSchema k => nil_ptr (get_sliceSchema o k)
  | FPtrSchema k => nil_ptr (get_ptrSchema o k)
  | FSliceStr k => nil_ptr (get_sliceStr o k)
  | FUint k => nil_ptr (get_uint o k)
  | FDependentRequired => nil_ptr (DependentRequired o)
  | FFloat k => nil_ptr (get_float o k)
  end.

(** The bytes that [u] makes FromURI retrieve in the world [w]: the content
    of the file at the path of a file URL, or the body of the answer to the
    GET of an http or https URL when the status is 200. *)
Definition retrieved (w : world) (u : URL) (bs : string) : Prop :=
  (Scheme u = "file" /\ readFile w (Path u) = Ok bs)
  \/ ((Scheme u = "http" \/ Scheme u = "https")
      /\ exists resp, httpGet w u = Ok resp
                      /\ StatusCode resp = 200%Z /\ Body resp = Ok bs).



(** A world whose HTTP client answers 200 with the given body. *)
Definition world_200 (body : string) : world :=
  mkWorld (fun _ => Err "no such file")
          (fun _ => Ok (mkResponse 200 (Ok body))).

(** ** The end of the input

    What the scanner gives when the input ends in the state [s]. *)
Definition final (s : scanner) : option json :=
  match stack s, current s with
  | [], MEnd => top s
  | [], MNum raw =>
      match end_number [] raw with
      | Some s' => top s'
      | None => None
      end
  | _, _ => None
  end.

(** A byte that is no white space. *)
Definition no_space (c : ascii) : bool := negb (is_space c).

(** The rest of a literal that the scanner is reading holds no white
    space. *)
Definition literal_ok (s : scanner) : Prop :=
  match current s with
  | MLit rest _ => all_bytes no_space rest = true
  | _ => True
  end.

(** ** Shapes and errors *)

(** A string, a number or an array: a value that is neither a boolean, nor
    an object, nor null. *)
Definition not_schema_shaped (x : json) : bool :=
  match x with
  | JStr _ | JNum _ | JArr _ => true
  | _ => false
  end.

(** A value that a schema-valued field cannot take: such a value for a
    [*Schema], an array with such an element for a [[]*Schema], an object
    with such a member for a [map[string]*Schema]. *)
Definition rejects (f : field) (x : json) : bool :=
  match f, x with
  | FPtrSchema _, _ => not_schema_shaped x
  | FSliceSchema _, JArr xs => existsb not_schema_shaped xs
  | FMapSchema _, JObj ms => existsb (fun kv => not_schema_shaped (snd kv)) ms
  | _, _ => false
  end.

(** A result that is no error, or the error of a value that does not fit. *)
Definition type_error_only {A} (r : result json_error A) : Prop :=
  match r with
  | Err e => e = UnmarshalTypeError
  | Ok _ => True
  end.

(** The values directly inside an array or an object satisfy [P]. *)
Definition children_ok (P : json -> Prop) (v : json) : Prop :=
  match v with
  | JArr xs => Forall P xs
  | JObj ms => Forall (fun kv => P (snd kv)) ms
  | _ => True
  end.

Definition um_ok (um : Schema -> json -> result json_error Schema)
  (v : json) : Prop :=
  forall s, type_error_only (um s v).

Unset Implicit Arguments.

(** * Properties *)

(** ** The decoder never writes baseURI *)

Section DecodeFacts.

Variable um : Schema -> json -> result json_error Schema.

Lemma decode_field_baseURI f x o o' :
  decode_field um f x o = Ok o' -> baseURI o' = baseURI o.
Proof.
  destruct f; simpl; unfold bind;
    match goal with
    | |- match ?d with _ => _ end = _ -> _ => destruct d
    end; intros H; inversion H; reflexivity.
Qed.

Lemma decode_member_baseURI kv o o' :
  decode_member um kv o = Ok o' -> baseURI o' = baseURI o.
Proof.
  unfold decode_member. destruct (lookup_field (fst kv)).
  - apply decode_field_baseURI.
  - intros H; inversion H; reflexivity.
Qed.

Lemma foldM_decode_baseURI ms : forall o o',
  foldM (decode_member um) ms o = Ok o' -> baseURI o' = baseURI o.
Proof.
  induction ms as [|kv ms IH]; simpl; intros o o' H.
  - inversion H; reflexivity.
  - unfold bind in H. destruct (decode_member um kv o) as [o1|e] eqn:E.
    + rewrite (IH _ _ H). eapply decode_member_baseURI; eassumption.
    + discriminate.
Qed.

Lemma Unmarshal_schema_baseURI data o o' :
  Unmarshal_schema um data o = Ok o' -> baseURI o' = baseURI o.
Proof.
  destruct data; simpl; intros H; try discriminate.
  - inversion H; reflexivity.
  - eapply foldM_decode_baseURI; eassumption.
Qed.

(** A key that matches no field leaves the struct as it is, whatever its
    value. *)
Lemma foldM_decode_skip ms1 k x ms2 : forall o,
  lookup_field k = None ->
  foldM (decode_member um) (ms1 ++ (k, x) :: ms2) o
  = foldM (decode_member um) (ms1 ++ ms2) o.
Proof.
  induction ms1 as [|kv ms1 IH]; simpl; intros o Hk.
  - unfold decode_member at 1. simpl. rewrite Hk. reflexivity.
  - unfold bind. destruct (decode_member um kv o); auto.
Qed.

End DecodeFacts.

Lemma UnmarshalJSON_unfold s data :
  UnmarshalJSON s data =
  match data with
  | JBool false => Ok (mkSchema (Some false) (Schema_schema s))
  | JBool true => Ok (mkSchema (Some true) (Schema_schema s))
  | _ =>
      o <- Unmarshal_schema UnmarshalJSON data (schema_zero Schema) ;;
      Ok (mkSchema (Schema_bool s) (Some o))
  end.
Proof. destruct data; reflexivity. Qed.

Lemma Unmarshal_baseURI data s o :
  Unmarshal data = Ok s -> Schema_schema s = Some o -> baseURI o = EmptyString.
Proof.
  unfold Unmarshal. rewrite UnmarshalJSON_unfold.
  assert (G : (o0 <- Unmarshal_schema UnmarshalJSON data (schema_zero Schema) ;;
               Ok (mkSchema (Schema_bool Schema_zero) (Some o0))) = Ok s ->
              Schema_schema s = Some o -> baseURI o = EmptyString).
  { unfold bind.
    destruct (Unmarshal_schema UnmarshalJSON data (schema_zero Schema))
      as [o1|e] eqn:E; [|discriminate].
    intros H Hs. inversion H; subst s. simpl in Hs. inversion Hs; subst o1.
    apply Unmarshal_schema_baseURI in E. exact E. }
  destruct data as [ |b| | | | ]; try exact G.
  destruct b; intros H Hs; inversion H; subst s; discriminate.
Qed.

Lemma unmarshal_result_baseURI bs s o :
  unmarshal_result bs = Ok s -> Schema_schema s = Some o ->
  baseURI o = EmptyString.
Proof.
  unfold unmarshal_result, json_Unmarshal.
  destruct (scan bs) as [v|]; [|discriminate].
  destruct (Unmarshal v) as [s'|e] eqn:E; [|discriminate].
  intros H; inversion H; subst s'. eapply Unmarshal_baseURI; eassumption.
Qed.

(** ** Boolean schemas *)

(** C2, as the claim states it, fails: the schema value parsed from the
    literal [true] is serialized as the empty object, not as [true]. *)
Lemma Marshal_true_is_not_the_literal :
  exists s, json_Unmarshal "true" = Ok s /\ AsBool s = (true, true)
            /\ Marshal s = JObj [] /\ Marshal s <> JBool true.
Proof.
  exists (mkSchema (Some true) None). repeat split. discriminate.
Qed.

(** C2, amended: parsing the literal [true] (respectively [false]), white
    space around it or not, yields a schema whose AsBool returns
    (true, true) (respectively (false, true)); json.Marshal writes that
    schema value as the empty object. *)
Theorem boolean_schema_parse_and_marshal (b : bool) (text : string) :
  scan text = Some (JBool b) ->
  exists s, json_Unmarshal text = Ok s /\ AsBool s = (b, true)
            /\ Marshal s = JObj [].
Proof.
  intros H. exists (mkSchema (Some b) None).
  unfold json_Unmarshal. rewrite H. destruct b; repeat split.
Qed.

Lemma boolean_schema_parse_and_marshal_witness :
  (exists s, json_Unmarshal "true" = Ok s /\ AsBool s = (true, true)
             /\ Marshal s = JObj [])
  /\ (exists s, json_Unmarshal " false " = Ok s /\ AsBool s = (false, true)
                /\ Marshal s = JObj []).
Proof.
  split.
  - apply (boolean_schema_parse_and_marshal true "true"). reflexivity.
  - apply (boolean_schema_parse_and_marshal false " false "). reflexivity.
Defined.

(** C7: parsing [{"additionalProperties": false}] yields an object schema
    whose AdditionalProperties is a schema value with AsBool = (false,
    true). *)
Theorem additionalProperties_false :
  exists s o ap,
    json_Unmarshal (dq "{'additionalProperties': false}") = Ok s
    /\ Schema_bool s = None
    /\ Schema_schema s = Some o
    /\ AdditionalProperties o = Some ap
    /\ AsBool ap = (false, true).
Proof.
  eexists. eexists. eexists.
  split; [vm_compute; reflexivity|].
  repeat split.
Qed.

(** ** The keywords type and items *)

(** C3: the code accepts a type that is none of the seven tags. Parsing
    [{"type": "banana"}] succeeds and stores the string; a type that is a
    number, or an array with a repeated tag and an object in it, is
    accepted as well. *)
Theorem type_banana_is_accepted :
  ~ In "banana" types
  /\ (exists s o, json_Unmarshal (dq "{'type': 'banana'}") = Ok s
                  /\ Schema_schema s = Some o
                  /\ Type_ o = Some (AString "banana"))
  /\ is_ok (json_Unmarshal (dq "{'type': 5}")) = true
  /\ is_ok (json_Unmarshal (dq "{'type': ['string', 'string', {}]}")) = true.
Proof.
  split.
  { unfold types. simpl. intros H.
    repeat (destruct H as [H|H]; [discriminate H|]). exact H. }
  split; [|split; vm_compute; reflexivity].
  eexists. eexists. split; [vm_compute; reflexivity|]. split; reflexivity.
Qed.

(** C4: the code accepts items that are no schema, and keeps an array of
    items as plain decoded JSON: the element [false] is stored as a Go bool
    and the element object as a Go map, neither as a Schema. *)
Theorem items_are_not_parsed_as_schemas :
  (exists s o, json_Unmarshal (dq "{'items': 'not-a-schema'}") = Ok s
               /\ Schema_schema s = Some o
               /\ Items o = Some (AString "not-a-schema"))
  /\ (exists s o,
        json_Unmarshal (dq "{'items': [false, {'type': 'string'}]}") = Ok s
        /\ Schema_schema s = Some o
        /\ Items o = Some (ASlice [Some (ABool false);
                                   Some (AMap [("type",
                                                Some (AString "string"))])])).
Proof.
  split; eexists; eexists; (split; [vm_compute; reflexivity|]);
    split; reflexivity.
Qed.

(** ** The top-level value *)

(** C6, as the claim states it, fails: the top-level value [null] is
    neither a boolean nor an object, and parsing it returns no error but
    an object schema without keywords. *)
Lemma Unmarshal_null_is_accepted :
  json_Unmarshal "null" = Ok (mkSchema None (Some (schema_zero Schema))).
Proof. reflexivity. Qed.

(** C6, amended: a top-level string, number or array is a parse error;
    a top-level [null] is accepted and yields an object schema without
    keywords; in a top-level object a key that matches no field is
    ignored, whatever its value. *)
Theorem Unmarshal_top_level :
  (forall s, Unmarshal (JStr s) = Err UnmarshalTypeError)
  /\ (forall lit, Unmarshal (JNum lit) = Err UnmarshalTypeError)
  /\ (forall xs, Unmarshal (JArr xs) = Err UnmarshalTypeError)
  /\ Unmarshal JNull = Ok (mkSchema None (Some (schema_zero Schema)))
  /\ (forall ms1 k x ms2,
        lookup_field k = None ->
        Unmarshal (JObj (ms1 ++ (k, x) :: ms2)) = Unmarshal (JObj (ms1 ++ ms2))).
Proof.
  repeat split.
  intros ms1 k x ms2 Hk. unfold Unmarshal.
  rewrite !UnmarshalJSON_unfold. simpl.
  rewrite foldM_decode_skip by exact Hk. reflexivity.
Qed.

Lemma Unmarshal_top_level_witness :
  lookup_field "x-extension" = None
  /\ Unmarshal (JObj ([("title", JStr "t")]
                      ++ ("x-extension", JArr [JNum "1"]) :: [("not", JBool true)]))
     = Unmarshal (JObj ([("title", JStr "t")] ++ [("not", JBool true)])).
Proof.
  split; [reflexivity|].
  apply (proj2 (proj2 (proj2 (proj2 Unmarshal_top_level)))). reflexivity.
Defined.

(** ** FromURI *)

(** C5, as the claim states it, fails: after a successful load of an
    object schema from [file:///schema.json] the baseURI is empty, not the
    URI. *)
Lemma FromURI_leaves_baseURI_empty :
  exists s o,
    run world_empty_object (FromURI "file:///schema.json")
    = ([EvReadFile "/schema.json"], Ok s)
    /\ Schema_schema s = Some o
    /\ baseURI o = EmptyString
    /\ baseURI o <> "file:///schema.json".
Proof.
  eexists. eexists. split; [vm_compute; reflexivity|].
  repeat split. discriminate.
Qed.

(** C5, amended: FromURI never assigns baseURI. After every successful
    load whose result is an object schema, the baseURI of the top-level
    schema object is the empty string. *)
Theorem FromURI_baseURI (w : world) (uri : string) (s : Schema) (o : schema) :
  snd (run w (FromURI uri)) = Ok s ->
  Schema_schema s = Some o ->
  baseURI o = EmptyString.
Proof.
  unfold FromURI.
  destruct (url_Parse uri) as [u|e]; simpl; [|discriminate].
  destruct (String.eqb (Scheme u) "file"); simpl.
  - destruct (readFile w (Path u)) as [bs|c]; simpl; [|discriminate].
    apply unmarshal_result_baseURI.
  - destruct (String.eqb (Scheme u) "http" || String.eqb (Scheme u) "https");
      simpl; [|discriminate].
    destruct (httpGet w u) as [resp|c]; simpl; [|discriminate].
    destruct (negb (StatusCode resp =? 200)%Z); simpl; [discriminate|].
    destruct (Body resp) as [bs|c]; simpl; [|discriminate].
    apply unmarshal_result_baseURI.
Qed.

Lemma FromURI_baseURI_witness :
  exists s o,
    snd (run world_empty_object (FromURI "file:///schema.json")) = Ok s
    /\ Schema_schema s = Some o
    /\ baseURI o = EmptyString.
Proof.
  eexists. eexists.
  assert (H1 : snd (run world_empty_object (FromURI "file:///schema.json"))
               = Ok (mkSchema None (Some (schema_zero Schema))))
    by (vm_compute; reflexivity).
  split; [exact H1|]. split; [reflexivity|].
  exact (FromURI_baseURI world_empty_object "file:///schema.json"
           (mkSchema None (Some (schema_zero Schema))) (schema_zero Schema)
           H1 eq_refl).
Defined.

(** C8: for every URI that url.Parse accepts and whose scheme is not file,
    http or https, FromURI returns the unsupported-scheme error that names
    the scheme, without any call to a collaborator and without parsing. *)
Theorem FromURI_unsupported_scheme (uri : string) (u : URL) :
  url_Parse uri = Ok u ->
  Scheme u <> "file" -> Scheme u <> "http" -> Scheme u <> "https" ->
  FromURI uri = Ret (Err (UnsupportedScheme (Scheme u))).
Proof.
  intros Hp Hf Hh Hs. unfold FromURI. rewrite Hp.
  apply String.eqb_neq in Hf, Hh, Hs. rewrite Hf, Hh, Hs. reflexivity.
Qed.

Lemma FromURI_unsupported_scheme_witness :
  FromURI "ftp://example.com/schema.json" = Ret (Err (UnsupportedScheme "ftp")).
Proof.
  refine (@FromURI_unsupported_scheme "ftp://example.com/schema.json"
            (mkURL "ftp" EmptyString None "example.com" "/schema.json"
               EmptyString false EmptyString EmptyString) _ _ _ _).
  - vm_compute; reflexivity.
  - simpl; discriminate.
  - simpl; discriminate.
  - simpl; discriminate.
Defined.

(** C9: for every http or https URI whose GET is answered with a status
    other than 200, FromURI returns the non-200 retrieval error; the only
    call to a collaborator is the GET, so the body is neither read nor
    parsed. *)
Theorem FromURI_non_200 (w : world) (uri : string) (u : URL) (resp : Response) :
  url_Parse uri = Ok u ->
  Scheme u = "http" \/ Scheme u = "https" ->
  httpGet w u = Ok resp ->
  StatusCode resp <> 200%Z ->
  run w (FromURI uri) = ([EvHttpGet u], Err Non200Response).
Proof.
  intros Hp Hs Hg Hc. unfold FromURI. rewrite Hp.
  assert (Hf : String.eqb (Scheme u) "file" = false)
    by (destruct Hs as [E|E]; rewrite E; reflexivity).
  assert (Hh : String.eqb (Scheme u) "http" || String.eqb (Scheme u) "https"
               = true)
    by (destruct Hs as [E|E]; rewrite E; reflexivity).
  rewrite Hf, Hh. simpl. rewrite Hg.
  apply Z.eqb_neq in Hc. rewrite Hc. reflexivity.
Qed.

Lemma FromURI_non_200_witness :
  exists u,
    url_Parse "https://example.com/schema.json" = Ok u
    /\ run world_404 (FromURI "https://example.com/schema.json")
       = ([EvHttpGet u], Err Non200Response).
Proof.
  eexists. split; [vm_compute; reflexivity|].
  apply (@FromURI_non_200 world_404 "https://example.com/schema.json" _
           (mkResponse 404 (Ok "true"))).
  - vm_compute; reflexivity.
  - right; reflexivity.
  - reflexivity.
  - simpl; discriminate.
Defined.

(** ** Values that come back as they went in *)

(** A numeral that ParseUint accepts is what the encoder writes for its
    value. *)
Lemma ParseUint_string_of_uint64 lit n :
  ParseUint lit = Some n -> valid_number lit = true ->
  string_of_uint64 n = lit.
Proof.
  unfold ParseUint, string_of_uint64. intros H Hv.
  destruct lit as [|c r]; [discriminate H|].
  unfold NilZero.uint_of_string in H.
  destruct (NilEmpty.uint_of_string (String c r)) as [d|] eqn:E;
    [|discriminate H].
  destruct (Z.of_N (N.of_uint d) <=? maxUint64)%Z; [|discriminate H].
  inversion H; subst n. rewrite N2Z.id.
  rewrite DecimalN.Unsigned.to_of.
  assert (G : Decimal.unorm d = d /\ d <> Decimal.Nil).
  { simpl in E.
    destruct (NilEmpty.uint_of_string r) as [d'|] eqn:E'; [|discriminate E].
    apply uint_of_char_spec in E.
    destruct E as [[-> ->]|E].
    - destruct r as [|c2 r2].
      + inversion E'; subst d'. split; [reflexivity|discriminate].
      + exfalso. simpl in E'.
        destruct (NilEmpty.uint_of_string r2) as [d2|]; [|discriminate E'].
        apply uint_of_char_spec in E'.
        repeat (destruct E' as [[-> _]|E']; [discriminate Hv|]).
        destruct E' as [-> _]. discriminate Hv.
    - repeat (destruct E as [[-> ->]|E]; [split; [reflexivity|discriminate]|]).
      destruct E as [-> ->]. split; [reflexivity|discriminate]. }
  destruct G as [G1 G2]. rewrite G1.
  unfold NilZero.string_of_uint.
  destruct d; [congruence| | | | | | | | | | ];
    apply NilEmpty.sus; exact E.
Qed.

(** A non-nested induction principle does not reach the elements of an
    array: this one does. *)
Section JsonInd.

Variable P : json -> Prop.
Hypothesis HNull : P JNull.
Hypothesis HBool : forall b, P (JBool b).
Hypothesis HNum : forall lit, P (JNum lit).
Hypothesis HStr : forall s, P (JStr s).
Hypothesis HArr : forall xs, Forall P xs -> P (JArr xs).
Hypothesis HObj : forall ms, Forall (fun kv => P (snd kv)) ms -> P (JObj ms).

Lemma json_nested_ind : forall v, P v.
Proof.
  exact
    (fix F (v : json) : P v :=
       match v with
       | JNull => HNull
       | JBool b => HBool b
       | JNum lit => HNum lit
       | JStr s => HStr s
       | JArr xs =>
           HArr xs
             ((fix go (l : list json) : Forall P l :=
                 match l with
                 | [] => Forall_nil P
                 | x :: l' => Forall_cons x (F x) (go l')
                 end) xs)
       | JObj ms =>
           HObj ms
             ((fix go (l : list (string * json))
                 : Forall (fun kv => P (snd kv)) l :=
                 match l with
                 | [] => Forall_nil _
                 | kv :: l' => Forall_cons kv (F (snd kv)) (go l')
                 end) ms)
       end).
Qed.

End JsonInd.

Lemma valueInterface_plain x :
  plain x = true ->
  exists a, valueInterface x = Ok (Some a) /\ encode_any a = x.
Proof.
  induction x as [ |b|lit|s|xs IH|ms IH] using json_nested_ind;
    intros Hp; try discriminate Hp.
  - exists (ABool b). split; reflexivity.
  - exists (AString s). split; reflexivity.
  - assert (G : exists es, mapM valueInterface xs = Ok es
                           /\ map (encode_ptr encode_any) es = xs).
    { simpl in Hp. induction xs as [|x xs IHxs].
      - exists []. split; reflexivity.
      - simpl in Hp. apply andb_true_iff in Hp. destruct Hp as [Hx Hxs].
        inversion IH as [|? ? IHx IHrest]; subst.
        destruct (IHx Hx) as [a [Ha He]].
        destruct (IHxs IHrest Hxs) as [es [Hes Hm]].
        exists (Some a :: es). simpl. rewrite Ha. simpl. rewrite Hes. simpl.
        split; [reflexivity|]. rewrite He, Hm. reflexivity. }
    destruct G as [es [Hes Hm]].
    exists (ASlice es). simpl. rewrite Hes. simpl.
    split; [reflexivity|]. rewrite Hm. reflexivity.
Qed.

Lemma mapM_decode_strings xs :
  forallb is_JStr xs = true ->
  exists l, mapM (decode_string EmptyString) xs = Ok l
            /\ map JStr l = xs.
Proof.
  induction xs as [|x xs IH]; simpl; intros H.
  - exists []. split; reflexivity.
  - apply andb_true_iff in H. destruct H as [Hx Hxs].
    destruct x; try discriminate Hx.
    destruct (IH Hxs) as [l [Hl Hm]].
    exists (s :: l). simpl. rewrite Hl. simpl. rewrite Hm.
    split; reflexivity.
Qed.

(** ** Serializing what was parsed *)

Lemma foldM_app {E A S} (f : A -> S -> result E S) l1 l2 s :
  foldM f (l1 ++ l2) s = (s' <- foldM f l1 s ;; foldM f l2 s').
Proof.
  revert s. induction l1 as [|a l1 IH]; simpl; intros s; [reflexivity|].
  unfold bind. destruct (f a s); auto.
Qed.

(** Every exported field is in the table, and no two fields share a name. *)
Lemma fields_complete f : In f fields.
Proof.
  destruct f as [k|k|k| | |k|k|k|k|k| |k]; try destruct k;
    unfold fields; simpl; tauto.
Qed.

Lemma name_inj f f' : name f = name f' -> f = f'.
Proof.
  destruct f as [k|k|k| | |k|k|k|k|k| |k]; try destruct k;
    destruct f' as [k'|k'|k'| | |k'|k'|k'|k'|k'| |k']; try destruct k';
    simpl; intros H; solve [reflexivity | discriminate H].
Qed.

Section MarshalFacts.

Variable um : Schema -> json -> result json_error Schema.
Variable m : Schema -> json.

Lemma encode_field_zero f :
  encode_field m (schema_zero Schema) f = (true, JNull).
Proof.
  destruct f as [k|k|k| | |k|k|k|k|k| |k]; try destruct k; reflexivity.
Qed.

(** Decoding into one field leaves the value of every other field. *)
Lemma decode_field_frame f x o o' f' :
  decode_field um f x o = Ok o' -> f' <> f ->
  encode_field m o' f' = encode_field m o f'.
Proof.
  intros H Hne.
  destruct f as [k|k|k| | |k|k|k|k|k| |k]; simpl in H; unfold bind in H;
    match type of H with
    | match ?d with _ => _ end = _ => destruct d; [|discriminate H]
    end; inversion H; subst o'; clear H;
    destruct f' as [k'|k'|k'| | |k'|k'|k'|k'|k'| |k']; try destruct k';
    try reflexivity; try congruence; destruct k; try reflexivity;
    congruence.
Qed.

Lemma foldM_decode_frame f ms : forall o o',
  foldM (decode_member um) ms o = Ok o' ->
  (forall k x, In (k, x) ms -> lookup_field k <> Some f) ->
  encode_field m o' f = encode_field m o f.
Proof.
  induction ms as [|[k x] ms IH]; simpl; intros o o' H Hno.
  - inversion H; reflexivity.
  - unfold bind in H.
    destruct (decode_member um (k, x) o) as [o1|e] eqn:E; [|discriminate].
    rewrite (IH _ _ H) by (intros k' x' Hin; apply (Hno k' x'); auto).
    unfold decode_member in E. simpl in E.
    destruct (lookup_field k) as [f0|] eqn:L.
    + eapply decode_field_frame; [exact E|].
      intros ->. apply (Hno k x); auto.
    + inversion E; reflexivity.
Qed.

Lemma decode_field_keeps f x o o' :
  decode_field um f x o = Ok o' -> keeps_value f x = true ->
  encode_field m o' f = (false, x).
Proof.
  intros H Hk.
  destruct f as [k|k|k| | |k|k|k|k|k| |k]; try discriminate Hk.
  - destruct x; try discriminate Hk. simpl in H.
    inversion H; subst o'; destruct k; reflexivity.
  - destruct x; try discriminate Hk. simpl in H.
    inversion H; subst o'; destruct k; reflexivity.
  - assert (Hp : plain x = true) by (destruct k; solve [exact Hk | discriminate Hk]).
    destruct (valueInterface_plain x Hp) as [a [Ha He]].
    simpl in H. rewrite Ha in H. simpl in H. inversion H; subst o'.
    destruct k; simpl; unfold encode_interface; simpl; rewrite He; reflexivity.
  - destruct x as [ | | | |xs| ]; try discriminate Hk.
    destruct xs as [|y ys]; [discriminate Hk|].
    simpl in Hk. simpl in H. unfold bind in H.
    destruct (mapM_decode_strings (y :: ys) Hk) as [l [Hl Hm]].
    simpl in Hl. unfold bind in Hl.
    destruct (decode_string EmptyString y) as [s0|]; [|discriminate Hl].
    destruct (mapM (decode_string EmptyString) ys) as [l0|]; [|discriminate Hl].
    inversion Hl; subst l. inversion H; subst o'.
    destruct k; simpl; unfold encode_slice; simpl; simpl in Hm; rewrite <- Hm;
      reflexivity.
  - destruct x as [ | |lit| | | ]; try discriminate Hk.
    simpl in Hk. simpl in H.
    destruct (ParseUint lit) as [n|] eqn:P; [|discriminate H].
    simpl in H. inversion H; subst o'.
    rewrite <- (ParseUint_string_of_uint64 lit n P Hk).
    destruct k; reflexivity.
Qed.

Lemma in_encode_struct f o v :
  encode_field m o f = (false, v) -> In (name f, v) (encode_struct m o).
Proof.
  intros H. unfold encode_struct. apply in_flat_map.
  exists f. split; [apply fields_complete|].
  rewrite H. rewrite andb_false_r. left; reflexivity.
Qed.

Lemma not_in_encode_struct f o :
  omitempty f = true -> fst (encode_field m o f) = true ->
  ~ In (name f) (map fst (encode_struct m o)).
Proof.
  intros Ho He Hin. apply in_map_iff in Hin.
  destruct Hin as [[n v] [Hn Hin]]. simpl in Hn. subst n.
  unfold encode_struct in Hin. apply in_flat_map in Hin.
  destruct Hin as [f' [_ Hin]].
  destruct (encode_field m o f') as [e v'] eqn:E.
  destruct (omitempty f' && e) eqn:O; simpl in Hin; [contradiction|].
  destruct Hin as [Hin|[]]. inversion Hin as [[Hname Hv]].
  apply name_inj in Hname. subst f'.
  rewrite E in He. simpl in He. subst e. rewrite Ho in O. discriminate.
Qed.

End MarshalFacts.

Lemma Unmarshal_object ms s :
  Unmarshal (JObj ms) = Ok s ->
  exists o, foldM (decode_member UnmarshalJSON) ms (schema_zero Schema) = Ok o
            /\ s = mkSchema None (Some o).
Proof.
  unfold Unmarshal. rewrite UnmarshalJSON_unfold. simpl. unfold bind.
  destruct (foldM (decode_member UnmarshalJSON) ms (schema_zero Schema))
    as [o|e]; [|discriminate].
  intros H; inversion H. exists o; split; reflexivity.
Qed.

(** C1, as the claim states it, fails: the keyword [not] of value [false]
    comes back with the value [{}]. *)
Lemma Marshal_changes_a_boolean_subschema :
  exists s,
    json_Unmarshal (dq "{'not': false}") = Ok s
    /\ map_get "not" (members (Marshal s)) = Some (JObj [])
    /\ map_get "not" (members (Marshal s)) <> Some (JBool false).
Proof.
  eexists. split; [vm_compute; reflexivity|].
  split; [vm_compute; reflexivity|]. vm_compute. discriminate.
Qed.

(** C1, amended: for every schema value obtained by a successful parse of
    a JSON object, json.Marshal writes an object in which
    (a) a keyword declared with a json tag that no key of the input
        matches does not appear, and
    (b) a keyword whose last occurrence in the input has a value that
        [keeps_value] lists (a string for a string keyword, a boolean for
        a boolean keyword, a numeral for an unsigned integer keyword, an
        array of strings that is not empty for enum and required, a
        string, a boolean or an array of these for default and const)
        appears under its canonical name with that value. *)
Theorem Marshal_after_Unmarshal (ms : list (string * json)) (s : Schema) :
  Unmarshal (JObj ms) = Ok s ->
  (forall f,
     omitempty f = true ->
     (forall k x, In (k, x) ms -> lookup_field k <> Some f) ->
     ~ In (name f) (map fst (members (Marshal s))))
  /\ (forall f ms1 k x ms2,
        ms = ms1 ++ (k, x) :: ms2 ->
        lookup_field k = Some f ->
        (forall k' x', In (k', x') ms2 -> lookup_field k' <> Some f) ->
        keeps_value f x = true ->
        In (name f, x) (members (Marshal s))).
Proof.
  intros H. apply Unmarshal_object in H. destruct H as [o [Hf ->]].
  simpl. split.
  - intros f Ho Hno. apply not_in_encode_struct; [exact Ho|].
    rewrite (foldM_decode_frame UnmarshalJSON Marshal f ms _ _ Hf Hno).
    rewrite encode_field_zero. reflexivity.
  - intros f ms1 k x ms2 -> Hk Hno Hs.
    rewrite foldM_app in Hf. unfold bind in Hf.
    destruct (foldM (decode_member UnmarshalJSON) ms1 (schema_zero Schema))
      as [o1|e]; [|discriminate].
    simpl in Hf. unfold bind in Hf.
    destruct (decode_member UnmarshalJSON (k, x) o1) as [o2|e] eqn:E;
      [|discriminate].
    apply in_encode_struct.
    rewrite (foldM_decode_frame UnmarshalJSON Marshal f ms2 _ _ Hf Hno).
    unfold decode_member in E. simpl in E. rewrite Hk in E.
    eapply decode_field_keeps; eassumption.
Qed.

Lemma Marshal_after_Unmarshal_witness :
  exists s,
    Unmarshal (JObj [("title", JStr "x"); ("deprecated", JBool true)]) = Ok s
    /\ ~ In "description" (map fst (members (Marshal s)))
    /\ In ("title", JStr "x") (members (Marshal s)).
Proof.
  destruct (Unmarshal (JObj [("title", JStr "x"); ("deprecated", JBool true)]))
    as [s|e] eqn:E; [|vm_compute in E; discriminate E].
  exists s. split; [reflexivity|].
  destruct (Marshal_after_Unmarshal _ s E) as [Ha Hb]. split.
  - apply (Ha (FStr kDescription)); [reflexivity|].
    intros k x [H|[H|[]]]; inversion H; subst; vm_compute; discriminate.
  - apply (Hb (FStr kTitle) [] "title" (JStr "x") [("deprecated", JBool true)]).
    + reflexivity.
    + reflexivity.
    + intros k x [H|[]]; inversion H; subst; vm_compute; discriminate.
    + reflexivity.
Defined.

(** ** URIs without a scheme *)

(** C10, as the claim states it, fails: [%zz] holds no scheme, and
    url.Parse rejects it, so FromURI returns the error of url.Parse. *)
Lemma FromURI_scheme_less_invalid :
  getscheme "%zz" = Ok (EmptyString, "%zz")
  /\ url_Parse "%zz" = Err (EscapeError "%zz")
  /\ FromURI "%zz" = Ret (Err (URLError (EscapeError "%zz"))).
Proof. repeat split. Qed.

Lemma all_bytes_IndexByte p s c :
  all_bytes p s = true -> p c = false -> IndexByte s c = None.
Proof.
  intros Hs Hc. induction s as [|c' r IH]; simpl in *; [reflexivity|].
  apply andb_true_iff in Hs. destruct Hs as [Hc' Hr].
  destruct (Ascii.eqb c c') eqn:E.
  - apply Ascii.eqb_eq in E. subst c'. congruence.
  - rewrite (IH Hr). reflexivity.
Qed.

Lemma all_bytes_Count p s c :
  all_bytes p s = true -> p c = false -> Count s c = 0%nat.
Proof.
  intros Hs Hc. induction s as [|c' r IH]; simpl in *; [reflexivity|].
  apply andb_true_iff in Hs. destruct Hs as [Hc' Hr].
  destruct (Ascii.eqb c c') eqn:E.
  - apply Ascii.eqb_eq in E. subst c'. congruence.
  - rewrite (IH Hr). reflexivity.
Qed.

Lemma path_byte_not_CTL c :
  path_byte c = true -> (byte_val c <? 32)%Z || Ascii.eqb c "127" = false.
Proof.
  destruct c as [[] [] [] [] [] [] [] []]; intros H;
    solve [reflexivity | discriminate H].
Qed.

Lemma path_bytes_no_CTL s :
  all_bytes path_byte s = true -> stringContainsCTLByte s = false.
Proof.
  induction s as [|c r IH]; simpl; [reflexivity|]. intros H.
  apply andb_true_iff in H. destruct H as [Hc Hr].
  rewrite (path_byte_not_CTL c Hc). simpl. auto.
Qed.

Lemma path_bytes_getscheme rest : forall i rawurl,
  all_bytes path_byte rest = true ->
  getscheme_from i rest rawurl = Ok (EmptyString, rawurl).
Proof.
  induction rest as [|c r IH]; simpl; intros i rawurl H; [reflexivity|].
  apply andb_true_iff in H. destruct H as [Hc Hr].
  destruct (in_range 97 122 c || in_range 65 90 c); [auto|].
  destruct (in_range 48 57 c || byte_in c "+-."); [destruct i; auto|].
  destruct (Ascii.eqb c ":") eqn:E; [|reflexivity].
  apply Ascii.eqb_eq in E. subst c. discriminate Hc.
Qed.

Lemma path_bytes_unescape s :
  all_bytes path_byte s = true -> unescape s encodePath = Ok s.
Proof.
  induction s as [|c r IH]; [reflexivity|]. intros H.
  simpl in H. apply andb_true_iff in H. destruct H as [Hc Hr].
  destruct c as [[] [] [] [] [] [] [] []]; try discriminate Hc;
    simpl; rewrite (IH Hr); reflexivity.
Qed.

(** A string of path bytes that does not start with two slashes is a URL
    without a scheme. *)
Lemma path_bytes_url_Parse uri :
  all_bytes path_byte uri = true -> HasPrefix uri "//" = false ->
  exists u, url_Parse uri = Ok u /\ Scheme u = EmptyString.
Proof.
  intros Hb Hp. unfold url_Parse, split.
  rewrite (all_bytes_IndexByte path_byte uri "#" Hb eq_refl).
  unfold parse. rewrite (path_bytes_no_CTL uri Hb).
  destruct (String.eqb uri "*") eqn:E.
  { apply String.eqb_eq in E. subst uri. discriminate Hb. }
  unfold getscheme. rewrite (path_bytes_getscheme uri 0 uri Hb).
  cbn [bind fst snd ToLower nonempty].
  rewrite (all_bytes_Count path_byte uri "?" Hb eq_refl).
  rewrite andb_false_r. unfold split.
  rewrite (all_bytes_IndexByte path_byte uri "?" Hb eq_refl).
  rewrite (all_bytes_IndexByte path_byte uri ":" Hb eq_refl).
  rewrite !andb_false_r. rewrite Hp. rewrite andb_false_r.
  cbn [bind]. rewrite (path_bytes_unescape uri Hb). cbn [bind].
  eexists. split; reflexivity.
Qed.

(** C10, amended: for every URI string that url.Parse accepts without a
    scheme, FromURI returns the unsupported-scheme error that names the
    empty scheme, without any call to a collaborator; every string of
    letters, digits, [- _ . ~] and slashes that does not start with two
    slashes, such as [schema.json], is such a string. A string without a
    scheme that url.Parse rejects gets the error of url.Parse. *)
Theorem FromURI_no_scheme (uri : string) :
  (forall u, url_Parse uri = Ok u -> Scheme u = EmptyString ->
             FromURI uri = Ret (Err (UnsupportedScheme EmptyString)))
  /\ (all_bytes path_byte uri = true -> HasPrefix uri "//" = false ->
      FromURI uri = Ret (Err (UnsupportedScheme EmptyString)))
  /\ (forall e, url_Parse uri = Err e -> FromURI uri = Ret (Err (URLError e))).
Proof.
  assert (G : forall u, url_Parse uri = Ok u -> Scheme u = EmptyString ->
                        FromURI uri = Ret (Err (UnsupportedScheme EmptyString))).
  { intros u Hu Hs. unfold FromURI. rewrite Hu, Hs. reflexivity. }
  split; [exact G|]. split.
  - intros Hb Hp. destruct (path_bytes_url_Parse uri Hb Hp) as [u [Hu Hs]].
    exact (G u Hu Hs).
  - intros e He. unfold FromURI. rewrite He. reflexivity.
Qed.

Lemma FromURI_no_scheme_witness :
  FromURI "schema.json" = Ret (Err (UnsupportedScheme EmptyString)).
Proof.
  apply (proj1 (proj2 (FromURI_no_scheme "schema.json"))); reflexivity.
Defined.

(** * Further properties of the code *)

(** ** The two variants of a Schema *)

(** X1: a Schema that json.Unmarshal fills from a document holds exactly
    one of its two pointers: the boolean when the document is the literal
    [true] or [false], and then AsBool answers (that boolean, true); the
    schema object otherwise, and then AsBool answers (false, false). *)
Theorem json_Unmarshal_variant (text : string) (s : Schema) :
  json_Unmarshal text = Ok s ->
  (exists b, scan text = Some (JBool b)
             /\ s = mkSchema (Some b) None /\ AsBool s = (b, true))
  \/ (exists o, (forall b, scan text <> Some (JBool b))
                /\ s = mkSchema None (Some o) /\ AsBool s = (false, false)).
Proof.
  unfold json_Unmarshal. destruct (scan text) as [v|]; [|discriminate].
  unfold Unmarshal. rewrite UnmarshalJSON_unfold.
  destruct v as [ |b|lit|str|xs|ms].
  2: { destruct b; intros H; inversion H; left; eexists; repeat split. }
  all: unfold bind;
    match goal with
    | |- match ?d with _ => _ end = _ -> _ => destruct d as [o|e]
    end; [|discriminate]; intros H; inversion H; right; exists o;
    (split; [intros b; discriminate|split; reflexivity]).
Qed.

Lemma json_Unmarshal_variant_witness :
  (exists b, scan " false" = Some (JBool b)
             /\ mkSchema (Some false) None = mkSchema (Some b) None
             /\ AsBool (mkSchema (Some false) None) = (b, true))
  \/ (exists o, (forall b, scan " false" <> Some (JBool b))
                /\ mkSchema (Some false) None = mkSchema None (Some o)
                /\ AsBool (mkSchema (Some false) None) = (false, false)).
Proof.
  apply (json_Unmarshal_variant " false" (mkSchema (Some false) None)).
  reflexivity.
Defined.

Lemma lookup_ptrSchema_name k :
  lookup_field (name (FPtrSchema k)) = Some (FPtrSchema k).
Proof. destruct k; vm_compute; reflexivity. Qed.

(** X2: UnmarshalJSON sets one pointer of its receiver and leaves the
    other. When a document gives a schema-valued keyword twice, first as a
    boolean and then as an object, the decoder calls the method twice on
    the same Schema, and the result holds both: the schema object of the
    second value, and the boolean of the first, which AsBool still
    reports. *)
Theorem repeated_keyword_keeps_boolean
  (k : ptrSchemaField) (b : bool) (ms : list (string * json)) (sub : Schema) :
  Unmarshal (JObj ms) = Ok sub ->
  exists s o p,
    Unmarshal (JObj [(name (FPtrSchema k), JBool b);
                     (name (FPtrSchema k), JObj ms)]) = Ok s
    /\ Schema_schema s = Some o
    /\ get_ptrSchema o k = Some p
    /\ AsBool p = (b, true)
    /\ Schema_schema p = Schema_schema sub
    /\ Schema_schema p <> None.
Proof.
  intros H. apply Unmarshal_object in H. destruct H as [o1 [Hf ->]].
  unfold Unmarshal. rewrite UnmarshalJSON_unfold.
  cbn [Unmarshal_schema foldM]. unfold decode_member at 1 2.
  cbn [fst snd]. rewrite lookup_ptrSchema_name.
  assert (E1 : decode_field UnmarshalJSON (FPtrSchema k) (JBool b)
                 (schema_zero Schema)
               = Ok (set_ptrSchema k (Some (mkSchema (Some b) None))
                       (schema_zero Schema)))
    by (destruct k, b; reflexivity).
  rewrite E1. cbn [bind].
  assert (E2 : decode_field UnmarshalJSON (FPtrSchema k) (JObj ms)
                 (set_ptrSchema k (Some (mkSchema (Some b) None))
                    (schema_zero Schema))
               = Ok (set_ptrSchema k (Some (mkSchema (Some b) (Some o1)))
                       (set_ptrSchema k (Some (mkSchema (Some b) None))
                          (schema_zero Schema)))).
  { cbn [decode_field].
    assert (G : get_ptrSchema
                  (set_ptrSchema k (Some (mkSchema (Some b) None))
                     (schema_zero Schema)) k
                = Some (mkSchema (Some b) None)) by (destruct k; reflexivity).
    rewrite G. cbn [decode_ptr_Schema]. rewrite UnmarshalJSON_unfold.
    cbn [Unmarshal_schema]. rewrite Hf. reflexivity. }
  rewrite E2. cbn [bind].
  eexists. eexists. exists (mkSchema (Some b) (Some o1)).
  split; [reflexivity|]. split; [reflexivity|].
  split; [destruct k; reflexivity|].
  repeat split. discriminate.
Qed.

Lemma repeated_keyword_keeps_boolean_witness :
  exists s o p,
    Unmarshal (JObj [("not", JBool true); ("not", JObj [])]) = Ok s
    /\ Schema_schema s = Some o
    /\ Not o = Some p
    /\ AsBool p = (true, true)
    /\ Schema_schema p = Some (schema_zero Schema)
    /\ Schema_schema p <> None.
Proof.
  exact (repeated_keyword_keeps_boolean kNot true []
           (mkSchema None (Some (schema_zero Schema))) eq_refl).
Defined.

(** ** Keys and fields *)

Lemma foldName_name_inj f f' :
  foldName (name f) = foldName (name f') -> f = f'.
Proof.
  destruct f as [k|k|k| | |k|k|k|k|k| |k]; try destruct k;
    destruct f' as [k'|k'|k'| | |k'|k'|k'|k'|k'| |k']; try destruct k';
    intros H; vm_compute in H; solve [reflexivity | discriminate H].
Qed.

Lemma lookup_field_iff key f :
  lookup_field key = Some f <-> foldName key = foldName (name f).
Proof.
  unfold lookup_field. split.
  - destruct (find (fun f0 => String.eqb (name f0) key) fields) as [f0|] eqn:E.
    + intros H; inversion H; subst f0. apply find_some in E.
      destruct E as [_ E]. apply String.eqb_eq in E. rewrite E. reflexivity.
    + intros H. apply find_some in H. destruct H as [_ H].
      apply String.eqb_eq in H. symmetry. exact H.
  - intros H.
    destruct (find (fun f0 => String.eqb (name f0) key) fields) as [f0|] eqn:E.
    + apply find_some in E. destruct E as [_ E]. apply String.eqb_eq in E.
      f_equal. apply foldName_name_inj. rewrite E. exact H.
    + destruct (find (fun f0 => String.eqb (foldName (name f0)) (foldName key))
                  fields) as [f1|] eqn:E1.
      * apply find_some in E1. destruct E1 as [_ E1].
        apply String.eqb_eq in E1. f_equal. apply foldName_name_inj.
        rewrite E1. exact H.
      * exfalso.
        pose proof (find_none _ _ E1 f (fields_complete f)) as N.
        simpl in N. rewrite H in N. rewrite String.eqb_refl in N.
        discriminate N.
Qed.

Lemma lookup_field_fold key key' :
  foldName key = foldName key' -> lookup_field key = lookup_field key'.
Proof.
  intros H. destruct (lookup_field key') as [f|] eqn:E.
  - apply lookup_field_iff. rewrite H. apply lookup_field_iff. exact E.
  - destruct (lookup_field key) as [f|] eqn:E0; [|reflexivity].
    apply lookup_field_iff in E0. rewrite H in E0.
    apply lookup_field_iff in E0. congruence.
Qed.

(** X3: a key of the document selects a field exactly when it equals the
    name of the field up to the case of its letters, so a document and the
    same document with its top-level keys written in another case decode
    alike. This is what lets the keywords of the five fields declared
    without a tag, such as additionalProperties, reach their fields. *)
Theorem keys_match_up_to_case :
  (forall key f,
     lookup_field key = Some f <-> foldName key = foldName (name f))
  /\ (forall ms ms',
        Forall2 (fun kv kv' => foldName (fst kv) = foldName (fst kv')
                               /\ snd kv = snd kv') ms ms' ->
        Unmarshal (JObj ms) = Unmarshal (JObj ms')).
Proof.
  split; [exact lookup_field_iff|].
  intros ms ms' H. unfold Unmarshal. rewrite !UnmarshalJSON_unfold.
  cbn [Unmarshal_schema].
  assert (G : forall o, foldM (decode_member UnmarshalJSON) ms o
                        = foldM (decode_member UnmarshalJSON) ms' o).
  { induction H as [|[k x] [k' x'] ms ms' [Hk Hx] _ IH]; intros o;
      [reflexivity|].
    simpl in Hk, Hx. subst x'. cbn [foldM].
    unfold decode_member at 1 3. cbn [fst snd].
    rewrite (lookup_field_fold k k' Hk). unfold bind.
    destruct (match lookup_field k' with
              | Some f => decode_field UnmarshalJSON f x o
              | None => Ok o
              end); [apply IH|reflexivity]. }
  rewrite G. reflexivity.
Qed.

Lemma keys_match_up_to_case_witness :
  lookup_field "additionalProperties" = Some (FPtrSchema kAdditionalProperties)
  /\ Unmarshal (JObj [("TITLE", JStr "t"); ("MaxItems", JNum "3")])
     = Unmarshal (JObj [("title", JStr "t"); ("maxItems", JNum "3")]).
Proof.
  split.
  - apply (proj1 keys_match_up_to_case). reflexivity.
  - apply (proj2 keys_match_up_to_case).
    repeat constructor.
Defined.

(** ** The order of the members *)

Section MemberOrder.

Variable um : Schema -> json -> result json_error Schema.

(** Decoding into two different fields gives the same struct in either
    order. *)
Lemma decode_field_commute f f' x x' o o1 o2 :
  f <> f' ->
  decode_field um f x o = Ok o1 ->
  decode_field um f' x' o1 = Ok o2 ->
  exists o1', decode_field um f' x' o = Ok o1'
              /\ decode_field um f x o1' = Ok o2.
Proof.
  intros Hne H1 H2.
  destruct f as [k|k|k| | |k|k|k|k|k| |k]; try destruct k;
    cbn in H1; unfold bind in H1;
    match type of H1 with
    | match ?d with _ => _ end = _ => destruct d eqn:E1; [|discriminate H1]
    end; inversion H1; subst o1; clear H1;
    destruct f' as [k'|k'|k'| | |k'|k'|k'|k'|k'| |k']; try destruct k';
    try congruence;
    cbn in H2; unfold bind in H2;
    match type of H2 with
    | match ?d with _ => _ end = _ => destruct d eqn:E2; [|discriminate H2]
    end; inversion H2; subst o2; clear H2;
    eexists;
    (split; [cbn; rewrite E2; reflexivity|cbn; rewrite E1; reflexivity]).
Qed.

Lemma decode_member_commute kv kv' o o1 o2 :
  (forall f, lookup_field (fst kv) = Some f ->
             lookup_field (fst kv') <> Some f) ->
  decode_member um kv o = Ok o1 ->
  decode_member um kv' o1 = Ok o2 ->
  exists o1', decode_member um kv' o = Ok o1'
              /\ decode_member um kv o1' = Ok o2.
Proof.
  unfold decode_member. intros Hd H1 H2.
  destruct (lookup_field (fst kv)) as [f|] eqn:L.
  - destruct (lookup_field (fst kv')) as [f'|] eqn:L'.
    + apply (decode_field_commute f f' (snd kv) (snd kv') o o1 o2);
        [|assumption|assumption].
      intros ->. exact (Hd f' eq_refl eq_refl).
    + inversion H2; subst o2. exists o. split; [reflexivity|exact H1].
  - inversion H1; subst o1. exists o2. split; [exact H2|reflexivity].
Qed.

Lemma matched_fields_cons kv ms :
  matched_fields (kv :: ms)
  = match lookup_field (fst kv) with Some f => [f] | None => [] end
    ++ matched_fields ms.
Proof. reflexivity. Qed.

Lemma NoDup_matched_tail kv ms :
  NoDup (matched_fields (kv :: ms)) -> NoDup (matched_fields ms).
Proof.
  rewrite matched_fields_cons.
  destruct (lookup_field (fst kv)); simpl; intros H;
    [inversion H; assumption|exact H].
Qed.

Lemma foldM_decode_perm ms ms' :
  Permutation ms ms' ->
  NoDup (matched_fields ms) ->
  forall o o',
    foldM (decode_member um) ms o = Ok o' ->
    foldM (decode_member um) ms' o = Ok o'.
Proof.
  induction 1 as [|kv l l' HP IH|kv kv' l|l l' l'' HP1 IH1 HP2 IH2];
    intros Hnd o o' H.
  - exact H.
  - cbn [foldM] in *. unfold bind in *.
    destruct (decode_member um kv o) as [o1|e]; [|discriminate H].
    apply IH; [|exact H]. eapply NoDup_matched_tail; eassumption.
  - cbn [foldM] in *. unfold bind in *.
    destruct (decode_member um kv' o) as [o1|e] eqn:E1; [|discriminate H].
    destruct (decode_member um kv o1) as [o2|e] eqn:E2; [|discriminate H].
    assert (Hd : forall f, lookup_field (fst kv') = Some f ->
                           lookup_field (fst kv) <> Some f).
    { intros f L' L. rewrite !matched_fields_cons in Hnd.
      rewrite L, L' in Hnd. simpl in Hnd. inversion Hnd as [|? ? Hn _].
      apply Hn. left; reflexivity. }
    destruct (decode_member_commute kv' kv o o1 o2 Hd E1 E2)
      as [o1' [F1 F2]].
    rewrite F1, F2. exact H.
  - apply IH2.
    + unfold matched_fields in *.
      eapply Permutation_NoDup; [|exact Hnd].
      apply Permutation_flat_map. exact HP1.
    + apply IH1; assumption.
Qed.

End MemberOrder.

(** X4: the order of the members of a document does not matter as long as
    no two of its keys select the same field: the document with its
    members in any other order decodes to the same Schema. *)
Theorem member_order_is_irrelevant
  (ms ms' : list (string * json)) (s : Schema) :
  Permutation ms ms' ->
  NoDup (matched_fields ms) ->
  Unmarshal (JObj ms) = Ok s ->
  Unmarshal (JObj ms') = Ok s.
Proof.
  intros HP Hnd H. apply Unmarshal_object in H. destruct H as [o [Hf ->]].
  unfold Unmarshal. rewrite UnmarshalJSON_unfold. cbn [Unmarshal_schema].
  rewrite (foldM_decode_perm UnmarshalJSON ms ms' HP Hnd _ _ Hf).
  reflexivity.
Qed.

Lemma member_order_is_irrelevant_witness :
  exists s,
    Unmarshal (JObj [("title", JStr "t"); ("x-note", JNull);
                     ("not", JBool true)]) = Ok s
    /\ Unmarshal (JObj [("not", JBool true); ("title", JStr "t");
                        ("x-note", JNull)]) = Ok s.
Proof.
  eexists. split; [vm_compute; reflexivity|].
  apply (member_order_is_irrelevant
           [("title", JStr "t"); ("x-note", JNull); ("not", JBool true)]).
  - apply Permutation_sym.
    apply (Permutation_cons_app [("title", JStr "t"); ("x-note", JNull)] []).
    rewrite app_nil_r. apply Permutation_refl.
  - vm_compute. repeat constructor; simpl; intuition discriminate.
  - vm_compute; reflexivity.
Defined.

(** ** A keyword of value null *)

Section NullMember.

Variable um : Schema -> json -> result json_error Schema.

Lemma nil_field_zero f : nil_field (schema_zero Schema) f = true.
Proof.
  destruct f as [k|k|k| | |k|k|k|k|k| |k]; try destruct k; reflexivity.
Qed.

Lemma decode_field_nil_frame f x o o' f' :
  decode_field um f x o = Ok o' -> f' <> f ->
  nil_field o' f' = nil_field o f'.
Proof.
  intros H Hne.
  destruct f as [k|k|k| | |k|k|k|k|k| |k]; simpl in H; unfold bind in H;
    match type of H with
    | match ?d with _ => _ end = _ => destruct d; [|discriminate H]
    end; inversion H; subst o'; clear H;
    destruct f' as [k'|k'|k'| | |k'|k'|k'|k'|k'| |k']; try destruct k';
    try reflexivity; try congruence; destruct k; try reflexivity;
    congruence.
Qed.

Lemma foldM_decode_nil_frame f ms : forall o o',
  foldM (decode_member um) ms o = Ok o' ->
  (forall k x, In (k, x) ms -> lookup_field k <> Some f) ->
  nil_field o' f = nil_field o f.
Proof.
  induction ms as [|[k x] ms IH]; simpl; intros o o' H Hno.
  - inversion H; reflexivity.
  - unfold bind in H.
    destruct (decode_member um (k, x) o) as [o1|e] eqn:E; [|discriminate].
    rewrite (IH _ _ H) by (intros k' x' Hin; apply (Hno k' x'); auto).
    unfold decode_member in E. simpl in E.
    destruct (lookup_field k) as [f0|] eqn:L.
    + eapply decode_field_nil_frame; [exact E|].
      intros ->. apply (Hno k x); auto.
    + inversion E; reflexivity.
Qed.

(** [null] decoded into a field that holds nil leaves the struct as it
    is. *)
Lemma decode_field_null f o :
  nil_field o f = true -> decode_field um f JNull o = Ok o.
Proof.
  intros H. destruct o.
  destruct f as [k|k|k| | |k|k|k|k|k| |k]; try destruct k; simpl in H;
    match type of H with
    | nil_ptr ?v = true => destruct v; [discriminate H|]
    end; reflexivity.
Qed.

End NullMember.

(** X5: a keyword given as null is a keyword left out. A member of value
    null whose key selects a field that no earlier member selects can be
    removed from the document without any change to the result: the Schema
    does not tell "not specified" from "specified as null". *)
Theorem null_keyword_is_absent
  (ms1 : list (string * json)) (k : string) (ms2 : list (string * json))
  (f : field) :
  lookup_field k = Some f ->
  (forall k' x', In (k', x') ms1 -> lookup_field k' <> Some f) ->
  Unmarshal (JObj (ms1 ++ (k, JNull) :: ms2)) = Unmarshal (JObj (ms1 ++ ms2)).
Proof.
  intros Hk Hno. unfold Unmarshal. rewrite !UnmarshalJSON_unfold.
  cbn [Unmarshal_schema]. rewrite !foldM_app. unfold bind.
  destruct (foldM (decode_member UnmarshalJSON) ms1 (schema_zero Schema))
    as [o1|e] eqn:E; [|reflexivity].
  cbn [foldM]. unfold decode_member at 1. cbn [fst snd]. rewrite Hk.
  rewrite decode_field_null; [reflexivity|].
  rewrite (foldM_decode_nil_frame UnmarshalJSON f ms1 _ _ E Hno).
  apply nil_field_zero.
Qed.

Lemma null_keyword_is_absent_witness :
  Unmarshal (JObj ([("title", JStr "t")] ++ ("default", JNull)
                     :: [("const", JBool true)]))
  = Unmarshal (JObj ([("title", JStr "t")] ++ [("const", JBool true)])).
Proof.
  apply (null_keyword_is_absent [("title", JStr "t")] "default"
           [("const", JBool true)] (FAny kDefault)).
  - reflexivity.
  - intros k x [H|[]]; inversion H; subst; vm_compute; discriminate.
Defined.

(** ** Integer keywords *)

Lemma ParseUint_range lit n :
  ParseUint lit = Some n -> (0 <= n <= maxUint64)%Z.
Proof.
  unfold ParseUint. destruct (NilZero.uint_of_string lit) as [d|];
    [|discriminate].
  destruct (Z.of_N (N.of_uint d) <=? maxUint64)%Z eqn:E; [|discriminate].
  intros H; inversion H; subst n. apply Z.leb_le in E.
  split; [apply N2Z.is_nonneg|exact E].
Qed.

Lemma ParseUint_minus lit : ParseUint (String "-" lit) = None.
Proof.
  unfold ParseUint, NilZero.uint_of_string. simpl.
  destruct (NilEmpty.uint_of_string lit); reflexivity.
Qed.

Lemma decode_field_uint_range um f x o o' :
  decode_field um f x o = Ok o' ->
  (forall k n, get_uint o k = Some n -> (0 <= n <= maxUint64)%Z) ->
  forall k n, get_uint o' k = Some n -> (0 <= n <= maxUint64)%Z.
Proof.
  intros H Ho k n Hn.
  destruct f as [k0|k0|k0| | |k0|k0|k0|k0|k0| |k0];
    try (simpl in H; unfold bind in H;
         match type of H with
         | match ?d with _ => _ end = _ => destruct d; [|discriminate H]
         end; inversion H; subst o'; clear H;
         apply (Ho k n); destruct k; exact Hn).
  simpl in H. unfold decode_ptr_uint64 in H.
  destruct x as [ | |lit| | | ]; try discriminate H.
  - simpl in H. inversion H; subst o'; clear H.
    pose proof (Ho k n) as Hk.
    destruct k, k0; simpl in Hn, Hk; try discriminate Hn;
      exact (Hk Hn).
  - destruct (ParseUint lit) as [m|] eqn:P; [|discriminate H].
    simpl in H. inversion H; subst o'; clear H.
    pose proof (Ho k n) as Hk.
    destruct k, k0; simpl in Hn, Hk;
      solve [inversion Hn; subst; eapply ParseUint_range; eassumption
            | exact (Hk Hn)].
Qed.

(** X6: the integer keywords (maxItems, minItems, maxContains, minContains,
    maxProperties, minProperties, maxLength, minLength) hold unsigned
    64-bit values. After a successful parse each of them that is set lies
    between 0 and 2^64-1, and a document that gives one of them a negative
    number is a parse error. *)
Theorem integer_keywords_are_uint64 :
  (forall v s o k n,
     Unmarshal v = Ok s -> Schema_schema s = Some o ->
     get_uint o k = Some n -> (0 <= n <= 2 ^ 64 - 1)%Z)
  /\ (forall k lit ms,
        Unmarshal (JObj ((name (FUint k), JNum (String "-" lit)) :: ms))
        = Err UnmarshalTypeError).
Proof.
  split.
  - intros v s o k n H Hs Hn.
    assert (G : forall ms o0 o1,
              foldM (decode_member UnmarshalJSON) ms o0 = Ok o1 ->
              (forall k n, get_uint o0 k = Some n -> (0 <= n <= maxUint64)%Z) ->
              forall k n, get_uint o1 k = Some n -> (0 <= n <= maxUint64)%Z).
    { induction ms as [|kv ms IH]; simpl; intros o0 o1 Hf H0.
      - inversion Hf; subst; exact H0.
      - unfold bind in Hf.
        destruct (decode_member UnmarshalJSON kv o0) as [o2|e] eqn:E;
          [|discriminate].
        apply (IH _ _ Hf). unfold decode_member in E.
        destruct (lookup_field (fst kv)).
        + eapply decode_field_uint_range; eassumption.
        + inversion E; subst; exact H0. }
    assert (Z0 : forall k n, get_uint (schema_zero Schema) k = Some n ->
                             (0 <= n <= maxUint64)%Z)
      by (intros k0 n0 H0; destruct k0; discriminate H0).
    unfold Unmarshal in H. rewrite UnmarshalJSON_unfold in H.
    change (2 ^ 64 - 1)%Z with maxUint64.
    destruct v as [ |b| | | |ms]; try discriminate H.
    + inversion H; subst s. simpl in Hs. inversion Hs; subst o.
      apply (Z0 k n Hn).
    + destruct b; inversion H; subst s; discriminate Hs.
    + cbn [Unmarshal_schema] in H. unfold bind in H.
      destruct (foldM (decode_member UnmarshalJSON) ms (schema_zero Schema))
        as [o1|e] eqn:E; [|discriminate H].
      inversion H; subst s. simpl in Hs. inversion Hs; subst o1.
      apply (G ms _ _ E Z0 k n Hn).
  - intros k lit ms. unfold Unmarshal. rewrite UnmarshalJSON_unfold.
    cbn [Unmarshal_schema foldM]. unfold decode_member at 1. cbn [fst snd].
    assert (L : lookup_field (name (FUint k)) = Some (FUint k))
      by (destruct k; vm_compute; reflexivity).
    rewrite L. cbn [decode_field decode_ptr_uint64].
    rewrite ParseUint_minus. reflexivity.
Qed.

Lemma integer_keywords_are_uint64_witness :
  (0 <= 18446744073709551615 <= 2 ^ 64 - 1)%Z.
Proof.
  apply (proj1 integer_keywords_are_uint64
           (JObj [("maxLength", JNum "18446744073709551615")])
           (mkSchema None
              (Some (set_uint kMaxLength (Some 18446744073709551615%Z)
                       (schema_zero Schema))))
           (set_uint kMaxLength (Some 18446744073709551615%Z)
              (schema_zero Schema))
           kMaxLength).
  - vm_compute; reflexivity.
  - reflexivity.
  - reflexivity.
Defined.

(** ** What FromURI asks of its collaborators *)



(** X8: FromURI succeeds exactly when url.Parse accepts the URI, the
    retrieval that the scheme selects delivers bytes (the file at the path
    of a file URL; the body of a 200 answer to the GET of an http or https
    URL), and these bytes parse; the Schema it returns is the Schema parsed
    from them. *)
Theorem FromURI_succeeds_iff (w : world) (uri : string) (s : Schema) :
  snd (run w (FromURI uri)) = Ok s
  <-> exists u bs,
        url_Parse uri = Ok u /\ retrieved w u bs /\ json_Unmarshal bs = Ok s.
Proof.
  unfold FromURI, retrieved. split.
  - destruct (url_Parse uri) as [u|e]; [|discriminate].
    destruct (String.eqb (Scheme u) "file") eqn:Ef.
    + simpl. destruct (readFile w (Path u)) as [bs|c] eqn:Er; [|discriminate].
      simpl. unfold unmarshal_result.
      destruct (json_Unmarshal bs) as [s'|e] eqn:Ej; [|discriminate].
      intros H; inversion H; subst s'. exists u, bs.
      apply String.eqb_eq in Ef. auto.
    + destruct (String.eqb (Scheme u) "http" || String.eqb (Scheme u) "https")
        eqn:Eh; [|discriminate].
      simpl. destruct (httpGet w u) as [resp|c] eqn:Eg; [|discriminate].
      destruct (StatusCode resp =? 200)%Z eqn:Ec; [|discriminate].
      simpl. destruct (Body resp) as [bs|c] eqn:Eb; [|discriminate].
      simpl. unfold unmarshal_result.
      destruct (json_Unmarshal bs) as [s'|e] eqn:Ej; [|discriminate].
      intros H; inversion H; subst s'. exists u, bs.
      split; [reflexivity|]. split; [|exact Ej]. right. split.
      * apply orb_true_iff in Eh.
        destruct Eh as [E|E]; apply String.eqb_eq in E; auto.
      * exists resp. apply Z.eqb_eq in Ec. auto.
  - intros [u [bs [Hp [Hr Hj]]]]. rewrite Hp.
    destruct Hr as [[Hs Hr]|[Hs [resp [Hg [Hc Hb]]]]].
    + rewrite Hs. simpl. rewrite Hr. simpl. unfold unmarshal_result.
      rewrite Hj. reflexivity.
    + assert (Hf : String.eqb (Scheme u) "file" = false)
        by (destruct Hs as [E|E]; rewrite E; reflexivity).
      assert (Hh : String.eqb (Scheme u) "http"
                   || String.eqb (Scheme u) "https" = true)
        by (destruct Hs as [E|E]; rewrite E; reflexivity).
      rewrite Hf, Hh. simpl. rewrite Hg, Hc. simpl. rewrite Hb. simpl.
      unfold unmarshal_result. rewrite Hj. reflexivity.
Qed.

Lemma FromURI_succeeds_iff_witness :
  snd (run (world_200 "true") (FromURI "https://example.com/s.json"))
  = Ok (mkSchema (Some true) None).
Proof.
  apply (proj2 (FromURI_succeeds_iff (world_200 "true")
                  "https://example.com/s.json" (mkSchema (Some true) None))).
  eexists. exists "true". split; [vm_compute; reflexivity|].
  split; [|reflexivity].
  right. split; [right; reflexivity|].
  exists (mkResponse 200 (Ok "true")). repeat split.
Defined.

(** ** The URL that url.Parse returns *)

Lemma parse_shape rawurl u :
  parse rawurl = Ok u ->
  (Opaque u = EmptyString \/ Path u = EmptyString)
  /\ (Scheme u = EmptyString
      \/ exists sch rest, getscheme rawurl = Ok (sch, rest)
                          /\ Scheme u = ToLower sch).
Proof.
  unfold parse.
  destruct (stringContainsCTLByte rawurl); [discriminate|].
  destruct (String.eqb rawurl "*").
  { intros H; inversion H; simpl; auto. }
  unfold bind. destruct (getscheme rawurl) as [[sch rest0]|e]; [|discriminate].
  cbn [fst snd].
  destruct (match last_byte rest0 with
            | Some c => Ascii.eqb c "?"
            | None => false
            end && Nat.eqb (Count rest0 "?") 1);
    [|destruct (split rest0 "?" true) as [r q]].
  all: cbv beta iota.
  all: match goal with
       | |- (if ?c then _ else _) = _ -> _ => destruct c
       end.
  all: try (intros H; inversion H; simpl; split; [auto|]; right; eauto; fail).
  all: match goal with
       | |- (if ?c then _ else _) = _ -> _ => destruct c; [discriminate|]
       end.
  all: match goal with
       | |- match ?c with _ => _ end = _ -> _ =>
           destruct c as [[[user host] rest']|e]; [|discriminate]
       end.
  all: destruct (unescape rest' encodePath) as [path|e]; [|discriminate].
  all: intros H; inversion H; simpl; split; [auto|]; right; eauto.
Qed.

Lemma url_Parse_parse uri u :
  url_Parse uri = Ok u ->
  exists u0, parse (fst (split uri "#" true)) = Ok u0
             /\ Scheme u = Scheme u0 /\ Opaque u = Opaque u0
             /\ Path u = Path u0.
Proof.
  unfold url_Parse. destruct (split uri "#" true) as [r frag].
  cbn [fst]. unfold bind. destruct (parse r) as [u0|e]; [|discriminate].
  destruct frag as [|c frag].
  - intros H; inversion H; subst u0. exists u. auto.
  - destruct (unescape (String c frag) encodeFragment); [|discriminate].
    intros H; inversion H. exists u0. auto.
Qed.





(** X9: a file URI without a slash after the colon, such as
    [file:schema.json], is opaque to url.Parse and has an empty Path:
    FromURI then reads the file of the empty name, whatever the URI says
    after the colon. *)
Theorem FromURI_opaque_file (w : world) (uri : string) (u : URL) :
  url_Parse uri = Ok u ->
  Scheme u = "file" ->
  Opaque u <> EmptyString ->
  run w (FromURI uri)
  = ([EvReadFile EmptyString],
     match readFile w EmptyString with
     | Ok bs => unmarshal_result bs
     | Err c => Err (RetrievalError c)
     end).
Proof.
  intros Hp Hs Ho.
  assert (P : Path u = EmptyString).
  { destruct (url_Parse_parse uri u Hp) as [u0 [Hp0 [_ [Eo Ep]]]].
    destruct (proj1 (parse_shape _ u0 Hp0)) as [E|E]; congruence. }
  unfold FromURI. rewrite Hp, Hs. simpl. rewrite P.
  destruct (readFile w EmptyString); reflexivity.
Qed.

Lemma FromURI_opaque_file_witness :
  fst (run world_empty_object (FromURI "file:schemas/schema.json"))
  = [EvReadFile EmptyString].
Proof.
  rewrite (FromURI_opaque_file world_empty_object "file:schemas/schema.json"
             (mkURL "file" "schemas/schema.json" None EmptyString EmptyString
                EmptyString false EmptyString EmptyString)).
  - reflexivity.
  - vm_compute; reflexivity.
  - reflexivity.
  - simpl; discriminate.
Defined.



(** ** The keys that json.Marshal writes *)

Lemma NoDup_names : NoDup (map name fields).
Proof.
  unfold fields. simpl.
  repeat (constructor; [simpl; intuition discriminate|]).
  constructor.
Qed.

Section Keys.
Variable m : Schema -> json.

Lemma encode_struct_keys_incl o l k :
  In k (map fst (flat_map
                   (fun f => let (empty, v) := encode_field m o f in
                             if omitempty f && empty then []
                             else [(name f, v)]) l)) ->
  In k (map name l).
Proof.
  induction l as [|f l IH]; simpl; [auto|].
  rewrite map_app, in_app_iff. intros [H|H]; [|right; auto].
  destruct (encode_field m o f) as [e v].
  destruct (omitempty f && e); simpl in H; [contradiction|].
  destruct H as [H|[]]. left; exact H.
Qed.

Lemma encode_struct_keys_NoDup o l :
  NoDup (map name l) ->
  NoDup (map fst (flat_map
                    (fun f => let (empty, v) := encode_field m o f in
                              if omitempty f && empty then []
                              else [(name f, v)]) l)).
Proof.
  induction l as [|f l IH]; simpl; intros H; [constructor|].
  inversion H as [|? ? Hn Hl]; subst.
  rewrite map_app.
  destruct (encode_field m o f) as [e v].
  destruct (omitempty f && e); simpl; [auto|].
  constructor; [|auto].
  intros Hin. apply Hn. eapply encode_struct_keys_incl; eassumption.
Qed.

End Keys.

(** X11: json.Marshal writes every key of a Schema once, and every key it
    writes is the name of an exported field: the unexported baseURI never
    appears. For a schema object the five fields declared without a tag
    are always written, under their Go names. *)
Theorem Marshal_keys (s : Schema) :
  NoDup (map fst (members (Marshal s)))
  /\ (forall k, In k (map fst (members (Marshal s))) -> exists f, k = name f)
  /\ ~ In "baseURI" (map fst (members (Marshal s)))
  /\ (forall o f, Schema_schema s = Some o -> omitempty f = false ->
                  exists v, In (name f, v) (members (Marshal s))).
Proof.
  assert (K : forall k, In k (map fst (members (Marshal s))) ->
                        exists f, k = name f).
  { destruct s as [b [o|]]; simpl; [|contradiction].
    intros k H. apply encode_struct_keys_incl in H.
    apply in_map_iff in H. destruct H as [f [Hf _]]. exists f. auto. }
  split; [|split; [exact K|split]].
  - destruct s as [b [o|]]; simpl; [|constructor].
    apply encode_struct_keys_NoDup. exact NoDup_names.
  - intros H. destruct (K _ H) as [f Hf].
    destruct f as [k|k|k| | |k|k|k|k|k| |k]; try destruct k; discriminate Hf.
  - intros o f Hs Ho. destruct s as [b [o'|]]; [|discriminate Hs].
    simpl in Hs. inversion Hs; subst o'. simpl.
    exists (snd (encode_field Marshal o f)).
    unfold encode_struct. apply in_flat_map. exists f.
    split; [apply fields_complete|].
    destruct (encode_field Marshal o f) as [e v]. rewrite Ho. simpl.
    left; reflexivity.
Qed.

Lemma Marshal_keys_witness :
  exists v, In ("AdditionalProperties", v)
              (members (Marshal (mkSchema None (Some (schema_zero Schema))))).
Proof.
  exact (proj2 (proj2 (proj2 (Marshal_keys
                                (mkSchema None (Some (schema_zero Schema))))))
           (schema_zero Schema) (FPtrSchema kAdditionalProperties)
           eq_refl eq_refl).
Defined.

(** ** The example program *)

Lemma main_after_cases r :
  (exists s o ap,
     r = Ok s /\ Schema_schema s = Some o /\ AdditionalProperties o = Some ap
     /\ main_after r
        = ([PrintErr None; PrintBools (fst (AsBool ap)) (snd (AsBool ap));
            Dump s], Returned))
  \/ ((forall s o ap, r = Ok s -> Schema_schema s = Some o ->
                      AdditionalProperties o = Some ap -> False)
      /\ main_after r
         = ([PrintErr (match r with Ok _ => None | Err e => Some e end)],
            Panicked)).
Proof.
  destruct r as [s|e].
  - destruct s as [b [o|]].
    + destruct (AdditionalProperties o) as [ap|] eqn:E.
      * left. exists (mkSchema b (Some o)), o, ap.
        repeat split; try assumption.
        unfold main_after. simpl. rewrite E. simpl.
        destruct (AsBool ap); reflexivity.
      * right. split.
        -- intros s o' ap H Hs Ha. inversion H; subst s. simpl in Hs.
           inversion Hs; subst o'. congruence.
        -- unfold main_after. simpl. rewrite E. reflexivity.
    + right. split; [|reflexivity].
      intros s o ap H Hs. inversion H; subst s. discriminate Hs.
  - right. split; [|reflexivity]. intros s o ap H. discriminate H.
Qed.

(** X12: the example program returns exactly when FromURI succeeds with an
    object schema whose AdditionalProperties is set; it then has printed
    nil for the error, the two results of AsBool and the dump. In every
    other case (an error, a boolean schema, a document without
    additionalProperties) it stops on a nil pointer dereference after the
    first print; after an error that print shows the error. *)
Theorem main_returns_iff (w : world) :
  (snd (main w) = Returned
   <-> exists s o ap,
         snd (run w (FromURI example_uri)) = Ok s
         /\ Schema_schema s = Some o /\ AdditionalProperties o = Some ap)
  /\ (forall s o ap,
        snd (run w (FromURI example_uri)) = Ok s ->
        Schema_schema s = Some o -> AdditionalProperties o = Some ap ->
        snd (fst (main w))
        = [PrintErr None; PrintBools (fst (AsBool ap)) (snd (AsBool ap));
           Dump s])
  /\ (forall e,
        snd (run w (FromURI example_uri)) = Err e ->
        snd (fst (main w)) = [PrintErr (Some e)] /\ snd (main w) = Panicked).
Proof.
  unfold main.
  destruct (run w (FromURI example_uri)) as [t r]. cbn [snd fst].
  destruct (main_after_cases r)
    as [[s [o [ap [Hr [Hs [Ha Hm]]]]]]|[Hn Hm]]; rewrite Hm; cbn [snd fst].
  - split; [|split].
    + split; [intros _; exists s, o, ap; auto|reflexivity].
    + intros s' o' ap' H Hs' Ha'. rewrite Hr in H. inversion H; subst s'.
      rewrite Hs in Hs'. inversion Hs'; subst o'.
      rewrite Ha in Ha'. inversion Ha'; subst ap'. reflexivity.
    + intros e H. rewrite Hr in H. discriminate H.
  - split; [|split].
    + split; [discriminate|].
      intros [s [o [ap [H [Hs Ha]]]]]. exfalso. exact (Hn s o ap H Hs Ha).
    + intros s o ap H Hs Ha. exfalso. exact (Hn s o ap H Hs Ha).
    + intros e H. subst r. split; reflexivity.
Qed.

Lemma main_returns_iff_witness :
  snd (main (world_200 (dq "{'additionalProperties': false}"))) = Returned
  /\ snd (main (world_200 "true")) = Panicked.
Proof.
  split.
  - apply (proj1 (main_returns_iff _)).
    eexists. eexists. eexists.
    split; [vm_compute; reflexivity|]. split; reflexivity.
  - vm_compute. reflexivity.
Defined.

(** ** White space around a document *)

Lemma scan_final text :
  scan text = match run_scanner (mkScanner [] MValue None) text with
              | Some s => final s
              | None => None
              end.
Proof. reflexivity. Qed.

Lemma run_scanner_app a : forall s b,
  run_scanner s (a ++ b)%string
  = match run_scanner s a with
    | Some s' => run_scanner s' b
    | None => None
    end.
Proof.
  induction a as [|c a IH]; simpl; intros s b; [reflexivity|].
  destruct (step s c); [apply IH|reflexivity].
Qed.

Lemma is_space_cases c :
  is_space c = true ->
  c = " "%char \/ c = "009"%char \/ c = "013"%char \/ c = "010"%char.
Proof.
  unfold is_space. intros H.
  repeat (apply orb_true_iff in H; destruct H as [H|H]);
    apply Ascii.eqb_eq in H; auto.
Qed.

Lemma deliver_literal_ok st v s :
  deliver st v = Some s -> literal_ok s.
Proof.
  destruct st as [|[es|ms [k|]] st]; simpl; intros H; inversion H; exact I.
Qed.

Lemma step_end_literal_ok st tp c s :
  step_end st tp c = Some s -> literal_ok s.
Proof.
  unfold step_end. destruct (is_space c); [intros H; inversion H; exact I|].
  destruct st as [|[es|ms [k|]] st]; try discriminate;
    destruct (Ascii.eqb c ","); try (intros H; inversion H; exact I).
  - destruct (Ascii.eqb c "]"); [apply deliver_literal_ok|discriminate].
  - destruct (Ascii.eqb c "}"); [apply deliver_literal_ok|discriminate].
Qed.

Lemma step_value_literal_ok st c s :
  step_value st c = Some s -> literal_ok s.
Proof.
  unfold step_value, push.
  repeat match goal with
         | |- (if ?b then _ else _) = _ -> _ => destruct b
         end; intros H; inversion H; try exact I; reflexivity.
Qed.

Lemma step_literal_ok s c s' :
  literal_ok s -> step s c = Some s' -> literal_ok s'.
Proof.
  intros W. unfold step. destruct s as [st cur tp]. simpl.
  destruct cur as [ | | | |raw esc| |raw esc|raw|rest v| ].
  - destruct (is_space c); [intros H; inversion H; exact I|].
    apply step_value_literal_ok.
  - destruct (is_space c); [intros H; inversion H; exact I|].
    destruct (Ascii.eqb c "]"); [|apply step_value_literal_ok].
    destruct st as [|[es|ms k] st]; try discriminate.
    apply deliver_literal_ok.
  - destruct (is_space c); [intros H; inversion H; exact I|].
    destruct (Ascii.eqb c "}").
    + destruct st as [|[es|ms k] st]; try discriminate.
      apply deliver_literal_ok.
    + destruct (Ascii.eqb c "034"); [intros H; inversion H; exact I|discriminate].
  - destruct (is_space c); [intros H; inversion H; exact I|].
    destruct (Ascii.eqb c "034"); [intros H; inversion H; exact I|discriminate].
  - destruct esc; [intros H; inversion H; exact I|].
    destruct (Ascii.eqb c "\"); [intros H; inversion H; exact I|].
    destruct (Ascii.eqb c "034"); [|intros H; inversion H; exact I].
    destruct (unquote (rev_string "" raw)); [|discriminate].
    unfold set_key. destruct st as [|[es|ms k] st]; try discriminate.
    intros H; inversion H; exact I.
  - destruct (is_space c); [intros H; inversion H; exact I|].
    destruct (Ascii.eqb c ":"); [intros H; inversion H; exact I|discriminate].
  - destruct esc; [intros H; inversion H; exact I|].
    destruct (Ascii.eqb c "\"); [intros H; inversion H; exact I|].
    destruct (Ascii.eqb c "034"); [|intros H; inversion H; exact I].
    destruct (unquote (rev_string "" raw)); [|discriminate].
    apply deliver_literal_ok.
  - destruct (number_byte c); [intros H; inversion H; exact I|].
    destruct (end_number st raw); [|discriminate].
    apply step_end_literal_ok.
  - unfold literal_ok in W. simpl in W.
    destruct rest as [|c' [|c'' r]]; try discriminate.
    + destruct (Ascii.eqb c c'); [apply deliver_literal_ok|discriminate].
    + destruct (Ascii.eqb c c'); [|discriminate].
      intros H; inversion H. unfold literal_ok. simpl.
      simpl in W. apply andb_true_iff in W. destruct W as [_ W]. exact W.
  - apply step_end_literal_ok.
Qed.

Lemma run_literal_ok text : forall s s',
  literal_ok s -> run_scanner s text = Some s' -> literal_ok s'.
Proof.
  induction text as [|c text IH]; simpl; intros s s' W H.
  - inversion H; subst; exact W.
  - destruct (step s c) as [s1|] eqn:E; [|discriminate].
    eapply IH; [|exact H]. eapply step_literal_ok; eassumption.
Qed.

Lemma end_number_stack st raw s :
  end_number st raw = Some s ->
  (st = [] -> stack s = [] /\ current s = MEnd)
  /\ (st <> [] -> stack s <> []).
Proof.
  unfold end_number. destruct (valid_number (rev_string "" raw)); [|discriminate].
  destruct st as [|[es|ms [k|]] st]; simpl; intros H; inversion H; simpl;
    split; intros; try congruence; auto; discriminate.
Qed.

Lemma step_space s c :
  literal_ok s -> is_space c = true ->
  match step s c with
  | Some s' => final s' = final s /\ literal_ok s'
  | None => final s = None
  end.
Proof.
  intros W Hc.
  assert (Hq : Ascii.eqb c "034" = false /\ Ascii.eqb c "\" = false
               /\ number_byte c = false).
  { destruct (is_space_cases c Hc) as [-> | [-> | [-> | ->]]]; repeat split. }
  destruct Hq as [Hq [Hb Hn]].
  unfold step. destruct s as [st cur tp]. simpl.
  destruct cur as [ | | | |raw esc| |raw esc|raw|rest v| ];
    try (rewrite Hc; split; [reflexivity|exact W]).
  - destruct esc; [split; [destruct st; reflexivity|exact I]|].
    rewrite Hb, Hq. split; [destruct st; reflexivity|exact I].
  - destruct esc; [split; [destruct st; reflexivity|exact I]|].
    rewrite Hb, Hq. split; [destruct st; reflexivity|exact I].
  - rewrite Hn. unfold final. simpl.
    destruct st as [|f st].
    + destruct (end_number [] raw) as [s1|] eqn:E; [|reflexivity].
      unfold step_end. rewrite Hc. simpl.
      destruct (proj1 (end_number_stack [] raw s1 E) eq_refl) as [Es _].
      rewrite Es. split; [reflexivity|exact I].
    + destruct (end_number (f :: st) raw) as [s1|] eqn:E; [|reflexivity].
      unfold step_end. rewrite Hc. simpl.
      assert (N : stack s1 <> [])
        by (apply (proj2 (end_number_stack (f :: st) raw s1 E)); discriminate).
      destruct (stack s1); [congruence|]. split; [reflexivity|exact I].
  - unfold literal_ok in W. simpl in W.
    destruct rest as [|c' [|c'' r]].
    + destruct st; reflexivity.
    + simpl in W. apply andb_true_iff in W. destruct W as [W _].
      destruct (Ascii.eqb c c') eqn:E.
      * apply Ascii.eqb_eq in E. subst c'. unfold no_space in W.
        rewrite Hc in W. discriminate W.
      * destruct st; reflexivity.
    + simpl in W. apply andb_true_iff in W. destruct W as [W _].
      destruct (Ascii.eqb c c') eqn:E.
      * apply Ascii.eqb_eq in E. subst c'. unfold no_space in W.
        rewrite Hc in W. discriminate W.
      * destruct st; reflexivity.
  - unfold step_end. rewrite Hc. split; [reflexivity|exact I].
Qed.

Lemma run_spaces ws : forall s,
  literal_ok s -> all_bytes is_space ws = true ->
  match run_scanner s ws with
  | Some s' => final s' = final s
  | None => final s = None
  end.
Proof.
  induction ws as [|c ws IH]; simpl; intros s W H; [reflexivity|].
  apply andb_true_iff in H. destruct H as [Hc Hw].
  pose proof (step_space s c W Hc) as P.
  destruct (step s c) as [s1|]; [|exact P].
  destruct P as [P1 P2]. specialize (IH s1 P2 Hw).
  destruct (run_scanner s1 ws); rewrite <- P1; exact IH.
Qed.

Lemma run_leading ws : forall s,
  current s = MValue -> all_bytes is_space ws = true ->
  run_scanner s ws = Some s.
Proof.
  induction ws as [|c ws IH]; simpl; intros s Hs H; [reflexivity|].
  apply andb_true_iff in H. destruct H as [Hc Hw].
  unfold step. rewrite Hs, Hc. apply IH; assumption.
Qed.

(** X13: white space before and after a document changes nothing: the
    text with spaces, tabs and line ends around it scans to the same value
    or fails alike, and json.Unmarshal gives the same result. *)
Theorem white_space_around_document (lead text trail : string) :
  all_bytes is_space lead = true ->
  all_bytes is_space trail = true ->
  scan (lead ++ text ++ trail)%string = scan text
  /\ json_Unmarshal (lead ++ text ++ trail)%string = json_Unmarshal text.
Proof.
  intros Hl Ht.
  assert (G : scan (lead ++ text ++ trail)%string = scan text).
  { rewrite !scan_final. rewrite run_scanner_app.
    rewrite (run_leading lead (mkScanner [] MValue None) eq_refl Hl).
    rewrite run_scanner_app.
    destruct (run_scanner (mkScanner [] MValue None) text) as [s|] eqn:E;
      [|reflexivity].
    assert (W : literal_ok s) by (eapply run_literal_ok; [|exact E]; exact I).
    pose proof (run_spaces trail s W Ht) as P.
    destruct (run_scanner s trail); [exact P|symmetry; exact P]. }
  split; [exact G|]. unfold json_Unmarshal. rewrite G. reflexivity.
Qed.

Lemma white_space_around_document_witness :
  json_Unmarshal (" " ++ "true" ++ String "010" EmptyString)%string
  = json_Unmarshal "true".
Proof.
  apply (proj2 (white_space_around_document " " "true"
                  (String "010" EmptyString) eq_refl eq_refl)).
Defined.

(** ** Values that a schema-valued keyword rejects *)

Lemma UnmarshalJSON_not_schema_shaped s x :
  not_schema_shaped x = true -> is_ok (UnmarshalJSON s x) = false.
Proof. destruct x; try discriminate; reflexivity. Qed.

Lemma decode_ptr_Schema_rejects old x :
  not_schema_shaped x = true ->
  is_ok (decode_ptr_Schema UnmarshalJSON old x) = false.
Proof. destruct x; try discriminate; reflexivity. Qed.

Lemma mapM_rejects {A} (elem : json -> result json_error A) xs :
  existsb not_schema_shaped xs = true ->
  (forall x, not_schema_shaped x = true -> is_ok (elem x) = false) ->
  is_ok (mapM elem xs) = false.
Proof.
  intros H He. induction xs as [|x xs IH]; [discriminate H|].
  simpl in H. simpl. unfold bind.
  destruct (elem x) as [a|e] eqn:E; [|reflexivity].
  apply orb_true_iff in H. destruct H as [H|H].
  - specialize (He x H). rewrite E in He. discriminate He.
  - specialize (IH H). destruct (mapM elem xs); [discriminate IH|reflexivity].
Qed.

Lemma foldM_map_rejects {A} (elem : json -> result json_error A) ms :
  existsb (fun kv => not_schema_shaped (snd kv)) ms = true ->
  (forall x, not_schema_shaped x = true -> is_ok (elem x) = false) ->
  forall m0,
    is_ok (foldM (fun kv m => a <- elem (snd kv) ;;
                              Ok (map_set (fst kv) a m)) ms m0) = false.
Proof.
  intros H He. induction ms as [|kv ms IH]; [discriminate H|].
  simpl in H. intros m0. simpl. unfold bind.
  destruct (elem (snd kv)) as [a|e] eqn:E; [|reflexivity].
  apply orb_true_iff in H. destruct H as [H|H].
  - specialize (He _ H). rewrite E in He. discriminate He.
  - apply (IH H).
Qed.

Lemma decode_field_rejects f x o :
  rejects f x = true -> is_ok (decode_field UnmarshalJSON f x o) = false.
Proof.
  intros H. destruct f as [k|k|k| | |k|k|k|k|k| |k]; try discriminate H;
    simpl in H; simpl; unfold bind.
  - destruct x as [ | | | | |ms]; try discriminate H.
    unfold decode_map.
    pose proof (foldM_map_rejects (decode_ptr_Schema UnmarshalJSON None) ms H
                  (decode_ptr_Schema_rejects None)
                  (match get_mapSchema o k with Some m => m | None => [] end))
      as P.
    unfold bind.
    destruct (foldM _ ms _); [discriminate P|reflexivity].
  - destruct x as [ | | | |xs| ]; try discriminate H.
    unfold decode_slice.
    pose proof (mapM_rejects (decode_ptr_Schema UnmarshalJSON None) xs H
                  (decode_ptr_Schema_rejects None)) as P.
    unfold bind. destruct (mapM _ xs); [discriminate P|reflexivity].
  - pose proof (decode_ptr_Schema_rejects (get_ptrSchema o k) x H) as P.
    destruct (decode_ptr_Schema UnmarshalJSON (get_ptrSchema o k) x);
      [discriminate P|reflexivity].
Qed.

(** X14: a schema-valued keyword takes a boolean, an object or null and
    nothing else. A document in which not, if, then, else, additionalItems,
    unevaluatedItems, contains, additionalProperties,
    unevaluatedProperties or propertyNames is a string, a number or an
    array, in which an element of allOf, anyOf or oneOf is one, or in
    which a value inside $defs, definitions, dependentSchemas, properties
    or patternProperties is one, is a parse error, wherever the keyword
    stands among the members. *)
Theorem schema_keywords_reject_other_shapes
  (ms1 : list (string * json)) (key : string) (x : json)
  (ms2 : list (string * json)) (f : field) :
  lookup_field key = Some f ->
  rejects f x = true ->
  is_ok (Unmarshal (JObj (ms1 ++ (key, x) :: ms2))) = false.
Proof.
  intros Hk Hr. unfold Unmarshal. rewrite UnmarshalJSON_unfold.
  cbn [Unmarshal_schema]. rewrite foldM_app. unfold bind.
  destruct (foldM (decode_member UnmarshalJSON) ms1 (schema_zero Schema))
    as [o1|e]; [|reflexivity].
  cbn [foldM]. unfold decode_member at 1. cbn [fst snd]. rewrite Hk.
  pose proof (decode_field_rejects f x o1 Hr) as P. unfold bind.
  destruct (decode_field UnmarshalJSON f x o1); [discriminate P|reflexivity].
Qed.

Lemma schema_keywords_reject_other_shapes_witness :
  is_ok (Unmarshal (JObj ([("title", JStr "t")]
                            ++ ("allOf", JArr [JBool true; JStr "no"])
                            :: [("x", JNull)]))) = false.
Proof.
  apply (schema_keywords_reject_other_shapes [("title", JStr "t")] "allOf"
           (JArr [JBool true; JStr "no"]) [("x", JNull)]
           (FSliceSchema kAllOf)); reflexivity.
Defined.

(** ** The kind of a parse error *)

Lemma bind_type_error {A B} (r : result json_error A)
  (k : A -> result json_error B) :
  type_error_only r -> (forall a, type_error_only (k a)) ->
  type_error_only (bind r k).
Proof. destruct r; simpl; auto. Qed.

Lemma mapM_type_error {A} (f : json -> result json_error A) xs :
  Forall (fun x => type_error_only (f x)) xs -> type_error_only (mapM f xs).
Proof.
  induction 1 as [|x xs Hx _ IH]; simpl; [exact I|].
  apply bind_type_error; [exact Hx|]. intros a.
  apply bind_type_error; [exact IH|]. intros; exact I.
Qed.

Lemma foldM_type_error {A S} (f : A -> S -> result json_error S) l :
  Forall (fun a => forall s, type_error_only (f a s)) l ->
  forall s, type_error_only (foldM f l s).
Proof.
  induction 1 as [|a l Ha _ IH]; simpl; intros s; [exact I|].
  apply bind_type_error; [apply Ha|exact IH].
Qed.

Lemma valueInterface_type_error v : type_error_only (valueInterface v).
Proof.
  induction v as [ |b|lit|s|xs IH|ms IH] using json_nested_ind;
    simpl; try exact I.
  - destruct (ParseFloat lit); simpl; auto.
  - apply bind_type_error; [apply mapM_type_error; exact IH|].
    intros; exact I.
  - apply bind_type_error; [|intros; exact I].
    apply foldM_type_error.
    apply Forall_impl with (2 := IH). intros kv H m.
    apply bind_type_error; [exact H|intros; exact I].
Qed.

Lemma decode_slice_type_error {A} (elem : json -> result json_error A) x :
  (forall xs, x = JArr xs -> Forall (fun y => type_error_only (elem y)) xs) ->
  type_error_only (decode_slice elem x).
Proof.
  intros H. destruct x; simpl; try exact I; try reflexivity.
  apply bind_type_error; [|intros; exact I].
  apply mapM_type_error. apply H. reflexivity.
Qed.

Lemma decode_map_type_error {A} (elem : json -> result json_error A) old x :
  (forall ms, x = JObj ms ->
              Forall (fun kv => type_error_only (elem (snd kv))) ms) ->
  type_error_only (decode_map elem old x).
Proof.
  intros H. destruct x; simpl; try exact I; try reflexivity.
  apply bind_type_error; [|intros; exact I].
  apply foldM_type_error.
  apply Forall_impl with (2 := H _ eq_refl). intros kv Hk m.
  apply bind_type_error; [exact Hk|intros; exact I].
Qed.

Lemma decode_string_type_error old x : type_error_only (decode_string old x).
Proof. destruct x; simpl; auto. Qed.

Lemma decode_bool_type_error old x : type_error_only (decode_bool old x).
Proof. destruct x; simpl; auto. Qed.

Section TypeErrors.

Variable um : Schema -> json -> result json_error Schema.

Lemma decode_ptr_Schema_type_error old x :
  um_ok um x -> type_error_only (decode_ptr_Schema um old x).
Proof.
  intros H. destruct x; simpl; try exact I;
    (apply bind_type_error; [apply H|intros; exact I]).
Qed.

Lemma decode_field_type_error f x o :
  um_ok um x -> children_ok (um_ok um) x ->
  type_error_only (decode_field um f x o).
Proof.
  intros H1 H2.
  destruct f as [k|k|k| | |k|k|k|k|k| |k]; simpl;
    (apply bind_type_error; [|intros; exact I]).
  - destruct x; simpl; auto.
  - destruct x; simpl; auto.
  - apply valueInterface_type_error.
  - apply decode_slice_type_error. intros xs _.
    apply Forall_forall. intros; apply valueInterface_type_error.
  - apply decode_map_type_error. intros ms _.
    apply Forall_forall. intros; apply decode_bool_type_error.
  - apply decode_map_type_error. intros ms ->. simpl in H2.
    apply Forall_impl with (2 := H2). intros kv Hk.
    apply decode_ptr_Schema_type_error. exact Hk.
  - apply decode_slice_type_error. intros xs ->. simpl in H2.
    apply Forall_impl with (2 := H2). intros y Hy.
    apply decode_ptr_Schema_type_error. exact Hy.
  - apply decode_ptr_Schema_type_error. exact H1.
  - apply decode_slice_type_error. intros xs _.
    apply Forall_forall. intros; apply decode_string_type_error.
  - destruct x; simpl; auto. destruct (ParseUint lit); simpl; auto.
  - apply decode_map_type_error. intros ms _.
    apply Forall_forall. intros kv _.
    apply decode_slice_type_error. intros xs _.
    apply Forall_forall. intros; apply decode_string_type_error.
  - destruct x; simpl; auto. destruct (ParseFloat lit); simpl; auto.
Qed.

End TypeErrors.

Lemma UnmarshalJSON_type_error v :
  um_ok UnmarshalJSON v /\ children_ok (um_ok UnmarshalJSON) v.
Proof.
  induction v as [ |b|lit|str|xs IH|ms IH] using json_nested_ind.
  - split; [intros s; simpl; exact I|exact I].
  - split; [intros s; destruct b; simpl; exact I|exact I].
  - split; [intros s; reflexivity|exact I].
  - split; [intros s; reflexivity|exact I].
  - split; [intros s; reflexivity|].
    simpl. apply Forall_impl with (2 := IH). intros y [H _]. exact H.
  - split.
    + intros s. rewrite UnmarshalJSON_unfold.
      apply bind_type_error; [|intros; exact I].
      cbn [Unmarshal_schema]. apply foldM_type_error.
      apply Forall_impl with (2 := IH). intros kv [H1 H2] o.
      unfold decode_member. destruct (lookup_field (fst kv)); [|exact I].
      apply decode_field_type_error; assumption.
    + simpl. apply Forall_impl with (2 := IH). intros kv [H _]. exact H.
Qed.

(** X15: json.Unmarshal into a Schema reports a syntax error exactly for
    text that is not JSON: every failure on a document that is valid JSON
    is the error of a value that does not fit its field. *)
Theorem syntax_error_iff_not_json (text : string) :
  json_Unmarshal text = Err SyntaxError <-> scan text = None.
Proof.
  unfold json_Unmarshal. destruct (scan text) as [v|]; [|split; reflexivity].
  split; [|discriminate]. intros H.
  pose proof (proj1 (UnmarshalJSON_type_error v) Schema_zero) as P.
  unfold Unmarshal in H. rewrite H in P. simpl in P. discriminate P.
Qed.

Lemma syntax_error_iff_not_json_witness :
  json_Unmarshal "{" = Err SyntaxError.
Proof.
  apply (proj2 (syntax_error_iff_not_json "{")). reflexivity.
Defined.
